(** * The DVD (libdvdread) protocol of libavformat: a shallow embedding

    The protocol handler lives in [src/libavformat/dvd.c]; another revision
    of the same file is kept next to it ([src/unnamed/part_000]).  The two
    revisions share [check_disc_info], [dvd_close] and [dvd_read] verbatim;
    they differ in [dvd_open] (title clamping, title-set IFO, program chain)
    and in the diagnostics of [dvd_seek].  The definitions at top level
    follow [dvd.c]; the ones of module [Part000] follow the other revision.

    libdvdread and libavutil are not part of the repository.  libdvdread is
    a record of answer functions ([dvdread]); every call to it is recorded
    in a trace, so that acquisitions and releases of handles can be
    counted. *)

From Stdlib Require Import ZArith List String Ascii Bool Lia.
Import ListNotations.
Local Open Scope string_scope.
Local Open Scope list_scope.
Local Open Scope Z_scope.

(** ** C [int] arithmetic *)

Definition INT_MIN : Z := -2147483648.
Definition INT_MAX : Z := 2147483647.

Definition int_range (z : Z) : Prop := INT_MIN <= z <= INT_MAX.

(** Two's complement wrap-around of a mathematical integer into [int]. *)
Definition wrap32 (z : Z) : Z := (z + 2147483648) mod 4294967296 - 2147483648.

Definition int_add (a b : Z) : Z := wrap32 (a + b).
Definition int_sub (a b : Z) : Z := wrap32 (a - b).
Definition int_mul (a b : Z) : Z := wrap32 (a * b).

(** ** Constants of the included headers *)

(** errno.h *)
Definition EIO : Z := 5.
Definition EFAULT : Z := 14.
Definition EINVAL : Z := 22.

(** libavutil/error.h: [AVERROR(e)] is [-(e)], [AVERROR_EOF] is
    [FFERRTAG('E','O','F',' ')]. *)
Definition AVERROR (e : Z) : Z := - e.

Definition MKTAG (a b c d : ascii) : Z :=
  Z.lor (Z.of_N (N_of_ascii a))
    (Z.lor (Z.shiftl (Z.of_N (N_of_ascii b)) 8)
       (Z.lor (Z.shiftl (Z.of_N (N_of_ascii c)) 16)
          (Z.shiftl (Z.of_N (N_of_ascii d)) 24))).

Definition FFERRTAG (a b c d : ascii) : Z := - MKTAG a b c d.

Definition AVERROR_EOF : Z := FFERRTAG "E" "O" "F" " ".

(** dvd.c *)
Definition DVD_PROTO_PREFIX : string := "dvd:".
Definition DVD_VIDEO_LB_LEN : Z := 2048.

(** ** The libdvdread structures, as far as the protocol looks into them *)

(** [title_info_t] *)
Record title_info_t := mk_title_info {
  title_set_nr : Z;            (* uint8_t *)
  vts_ttn : Z                  (* uint8_t *)
}.

(** [tt_srpt_t]: the title table of the video manager. *)
Record tt_srpt_t := mk_tt_srpt {
  nr_of_srpts : Z;             (* uint16_t *)
  tt_title : list title_info_t (* title_info_t *title *)
}.

(** [ptt_info_t] *)
Record ptt_info_t := mk_ptt_info {
  pgcn : Z                     (* uint16_t *)
}.

(** [ttu_t] *)
Record ttu_t := mk_ttu {
  ptt : list ptt_info_t
}.

(** [vts_ptt_srpt_t]; [None] is a NULL [title] pointer. *)
Record vts_ptt_srpt_t := mk_vts_ptt_srpt {
  ptt_title : option (list ttu_t)
}.

(** [pgc_t]; [cell_playback] only records whether the pointer is set. *)
Record pgc_t := mk_pgc {
  nr_of_programs : Z;          (* uint8_t *)
  nr_of_cells : Z;             (* uint8_t *)
  cell_playback : bool
}.

(** [pgci_srp_t] *)
Record pgci_srp_t := mk_pgci_srp {
  pgc : option pgc_t
}.

(** [pgcit_t] *)
Record pgcit_t := mk_pgcit {
  pgci_srp : list pgci_srp_t
}.

(** [ifo_handle_t]; [vmgi_mat] and [vtsi_mat] only record whether the
    pointer is set. *)
Record ifo_handle_t := mk_ifo {
  vmgi_mat : bool;
  tt_srpt : option tt_srpt_t;
  vtsi_mat : bool;
  vts_pgcit : option pgcit_t;
  vts_ptt_srpt : option vts_ptt_srpt_t
}.

(** A handle is the number of the library call that handed it out. *)
Definition handle := nat.

(** Array subscript [a[i]]; outside the array the access is undefined. *)
Definition index {A : Type} (a : list A) (i : Z) : option A :=
  if i <? 0 then None else nth_error a (Z.to_nat i).

(** ** The session: [DVDContext] *)

Record DVDContext := mk_ctx {
  dvd : option handle;                    (* dvd_reader_t * *)
  vmg : option (handle * ifo_handle_t);   (* ifo_handle_t * *)
  vts : option (handle * ifo_handle_t);   (* ifo_handle_t * *)
  file : option handle;                   (* dvd_file_t * *)
  blocks : Z;
  cells : Z;
  chapters : Z;
  size : Z;
  offset : Z;
  title_set : Z;
  title : Z
}.

Definition set_dvd (v : option handle) (c : DVDContext) : DVDContext :=
  mk_ctx v (vmg c) (vts c) (file c) (blocks c) (cells c) (chapters c)
         (size c) (offset c) (title_set c) (title c).
Definition set_vmg (v : option (handle * ifo_handle_t)) (c : DVDContext) :=
  mk_ctx (dvd c) v (vts c) (file c) (blocks c) (cells c) (chapters c)
         (size c) (offset c) (title_set c) (title c).
Definition set_vts (v : option (handle * ifo_handle_t)) (c : DVDContext) :=
  mk_ctx (dvd c) (vmg c) v (file c) (blocks c) (cells c) (chapters c)
         (size c) (offset c) (title_set c) (title c).
Definition set_file (v : option handle) (c : DVDContext) : DVDContext :=
  mk_ctx (dvd c) (vmg c) (vts c) v (blocks c) (cells c) (chapters c)
         (size c) (offset c) (title_set c) (title c).
Definition set_blocks (v : Z) (c : DVDContext) : DVDContext :=
  mk_ctx (dvd c) (vmg c) (vts c) (file c) v (cells c) (chapters c)
         (size c) (offset c) (title_set c) (title c).
Definition set_cells (v : Z) (c : DVDContext) : DVDContext :=
  mk_ctx (dvd c) (vmg c) (vts c) (file c) (blocks c) v (chapters c)
         (size c) (offset c) (title_set c) (title c).
Definition set_chapters (v : Z) (c : DVDContext) : DVDContext :=
  mk_ctx (dvd c) (vmg c) (vts c) (file c) (blocks c) (cells c) v
         (size c) (offset c) (title_set c) (title c).
Definition set_size (v : Z) (c : DVDContext) : DVDContext :=
  mk_ctx (dvd c) (vmg c) (vts c) (file c) (blocks c) (cells c) (chapters c)
         v (offset c) (title_set c) (title c).
Definition set_offset (v : Z) (c : DVDContext) : DVDContext :=
  mk_ctx (dvd c) (vmg c) (vts c) (file c) (blocks c) (cells c) (chapters c)
         (size c) v (title_set c) (title c).
Definition set_title_set (v : Z) (c : DVDContext) : DVDContext :=
  mk_ctx (dvd c) (vmg c) (vts c) (file c) (blocks c) (cells c) (chapters c)
         (size c) (offset c) v (title c).
Definition set_title (v : Z) (c : DVDContext) : DVDContext :=
  mk_ctx (dvd c) (vmg c) (vts c) (file c) (blocks c) (cells c) (chapters c)
         (size c) (offset c) (title_set c) v.

(** The private data as the framework allocates it: zeroed, with the
    [title] option set (the option table gives it the default -1 and the
    range -1..99999). *)
Definition title_default : Z := -1.
Definition title_min : Z := -1.
Definition title_max : Z := 99999.

Definition new_context (t : Z) : DVDContext :=
  mk_ctx None None None None 0 0 0 0 0 0 t.

(** ** Observable events *)

Inductive log_level := AV_LOG_ERROR | AV_LOG_INFO | AV_LOG_DEBUG.

Inductive event :=
| EvDVDOpen (path : string) (res : option handle)
| EvDVDClose (reader : handle)
| EvIfoOpen (reader : handle) (titlenum : Z) (res : option handle)
| EvIfoClose (ifo : handle)
| EvDVDOpenFile (reader : handle) (titlenum : Z) (res : option handle)
| EvDVDFileSize (f : handle) (res : Z)
| EvDVDReadBlocks (f : option handle) (off : Z) (count : Z) (res : Z)
| EvLog (lvl : log_level) (fmt : string) (args : list Z)
| EvPrintf (fmt : string) (args : list Z).

(** ** The state the protocol functions run in *)

(** [priv_data] is [h->priv_data]; [clock] counts the library calls made so
    far; [trace] lists the events in the order they happened. *)
Record state := mk_state {
  priv_data : option DVDContext;
  clock : nat;
  trace : list event
}.

(** ** libdvdread, as answers to calls

    The first argument of each answer is the clock, so that two calls with
    the same arguments may be answered differently. *)
Record dvdread := mk_dvdread {
  lib_DVDOpen : nat -> string -> bool;
  lib_ifoOpen : nat -> handle -> Z -> option ifo_handle_t;
  lib_DVDOpenFile : nat -> handle -> Z -> bool;
  lib_DVDFileSize : nat -> handle -> Z;
  lib_DVDReadBlocks : nat -> option handle -> Z -> Z -> Z
}.

(** ** A state monad with undefined behaviour *)

Inductive outcome (A : Type) :=
| Done (a : A)
| Undefined.
Arguments Done {A} a.
Arguments Undefined {A}.

Definition M (A : Type) : Type := state -> outcome A * state.

Definition ret {A} (a : A) : M A := fun s => (Done a, s).

Definition bind {A B} (m : M A) (k : A -> M B) : M B :=
  fun s => match m s with
           | (Done a, s') => k a s'
           | (Undefined, s') => (Undefined, s')
           end.

Notation "x <- m ;; k" := (bind m (fun x => k))
  (at level 61, m at next level, right associativity).
Notation "m ;; k" := (bind m (fun _ => k))
  (at level 61, right associativity).

Definition undefined {A} : M A := fun s => (Undefined, s).

(** [h->priv_data] *)
Definition get_priv_data : M (option DVDContext) :=
  fun s => (Done (priv_data s), s).

(** Reading the context through the pointer [dvd]. *)
Definition deref : M DVDContext :=
  fun s => match priv_data s with
           | Some c => (Done c, s)
           | None => (Undefined, s)
           end.

(** Writing a field of the context through the pointer [dvd]. *)
Definition assign (f : DVDContext -> DVDContext) : M unit :=
  fun s => match priv_data s with
           | Some c => (Done tt, mk_state (Some (f c)) (clock s) (trace s))
           | None => (Undefined, s)
           end.

Definition emit (e : event) : M unit :=
  fun s => (Done tt, mk_state (priv_data s) (clock s) (trace s ++ [e])).

(** A library call: answer from the clock, then record the event. *)
Definition call {A} (answer : nat -> A) (ev : A -> event) : M A :=
  fun s => let a := answer (clock s) in
           (Done a, mk_state (priv_data s) (S (clock s)) (trace s ++ [ev a])).

Definition av_log (lvl : log_level) (fmt : string) (args : list Z) : M unit :=
  emit (EvLog lvl fmt args).

Definition printf (fmt : string) (args : list Z) : M unit :=
  emit (EvPrintf fmt args).

(** The rest of [str] after the prefix [pfx], if [str] starts with it. *)
Fixpoint strip_prefix (str pfx : string) : option string :=
  match pfx with
  | EmptyString => Some str
  | String p pfx' =>
      match str with
      | EmptyString => None
      | String c str' =>
          if Ascii.eqb c p then strip_prefix str' pfx' else None
      end
  end.

(** libavutil's [av_strstart(str, pfx, &ptr)]: tells whether [pfx] is a
    prefix of [str]; [*ptr] becomes the rest of [str] after the prefix in
    that case and keeps its value otherwise.  The second component is the
    new value of [*ptr]. *)
Definition av_strstart (str pfx : string) (ptr : string) : bool * string :=
  match strip_prefix str pfx with
  | Some rest => (true, rest)
  | None => (false, ptr)
  end.

Section Protocol.

Variable lib : dvdread.

(** *** The calls into libdvdread *)

Definition fresh (ok : bool) (now : nat) : option handle :=
  if ok then Some now else None.

Definition DVDOpen (path : string) : M (option handle) :=
  call (fun now => fresh (lib_DVDOpen lib now path) now) (EvDVDOpen path).

Definition DVDClose (reader : handle) : M unit :=
  call (fun _ => tt) (fun _ => EvDVDClose reader).

Definition ifoOpen (reader : handle) (titlenum : Z)
  : M (option (handle * ifo_handle_t)) :=
  call (fun now => option_map (pair now) (lib_ifoOpen lib now reader titlenum))
       (fun r => EvIfoOpen reader titlenum (option_map fst r)).

Definition ifoClose (ifo : handle) : M unit :=
  call (fun _ => tt) (fun _ => EvIfoClose ifo).

(** The domain argument is always [DVD_READ_TITLE_VOBS]. *)
Definition DVDOpenFile (reader : handle) (titlenum : Z) : M (option handle) :=
  call (fun now => fresh (lib_DVDOpenFile lib now reader titlenum) now)
       (EvDVDOpenFile reader titlenum).

(** The [ssize_t] answer is stored in an [int]. *)
Definition DVDFileSize (f : handle) : M Z :=
  call (fun now => wrap32 (lib_DVDFileSize lib now f)) (EvDVDFileSize f).

(** The [ssize_t] answer is stored in an [int]; the bytes written to the
    buffer are never looked at by the protocol and are left out. *)
Definition DVDReadBlocks (f : option handle) (off count : Z) : M Z :=
  call (fun now => wrap32 (lib_DVDReadBlocks lib now f off count))
       (EvDVDReadBlocks f off count).

(** *** check_disc_info

    [dvd_open] calls it right after it has stored a non-null disc handle;
    what the library would do with a null one is not modelled. *)

Definition check_disc_info : M Z :=
  ctx <- deref ;;
  match dvd ctx with
  | None => undefined
  | Some reader =>
      disc_info <- ifoOpen reader 0 ;;
      match disc_info with
      | None =>
          av_log AV_LOG_ERROR "ifoOpen() failed\n" [] ;;
          ret (-1)
      | Some _ => ret 0
      end
  end.

(** *** dvd_close *)

Definition dvd_close : M Z :=
  ctx <- deref ;;
  match vmg ctx with
  | Some (p, _) => ifoClose p
  | None => ret tt
  end ;;
  match vts ctx with
  | Some (p, _) => ifoClose p
  | None => ret tt
  end ;;
  match dvd ctx with
  | Some p => DVDClose p
  | None => ret tt
  end ;;
  ret 0.

(** *** dvd_read *)

Definition dvd_read : M Z :=
  h <- get_priv_data ;;
  match h with
  | None => ret (AVERROR EFAULT)
  | Some ctx =>
      match dvd ctx with
      | None => ret (AVERROR EFAULT)
      | Some _ =>
          blocks_read <- DVDReadBlocks (file ctx) (offset ctx) 1 ;;
          assign (fun c => set_offset (int_add (offset c) 1) c) ;;
          let len := int_mul blocks_read DVD_VIDEO_LB_LEN in
          ctx' <- deref ;;
          if (len =? 0) || (offset ctx' >=? blocks ctx')
          then ret AVERROR_EOF
          else ret len
      end
  end.

(** *** dvd_seek *)

Definition dvd_seek (pos : Z) (whence : Z) : M Z :=
  h <- get_priv_data ;;
  match h with
  | None => ret (AVERROR EFAULT)
  | Some ctx =>
      match dvd ctx with
      | None => ret (AVERROR EFAULT)
      | Some _ =>
          av_log AV_LOG_INFO "seek position: %d\n" [pos] ;;
          av_log AV_LOG_ERROR "Unsupported whence operation %d\n" [whence] ;;
          ret (AVERROR EINVAL)
      end
  end.

(** *** dvd_open *)

Definition dvd_open (path : string) (flags : Z) : M Z :=
  let diskname := snd (av_strstart path DVD_PROTO_PREFIX path) in
  reader <- DVDOpen diskname ;;
  assign (set_dvd reader) ;;
  match reader with
  | None =>
      av_log AV_LOG_ERROR "DVDOpen() failed\n" [] ;;
      ret (AVERROR EIO)
  | Some rd =>
  (* check if disc can be played *)
  probe <- check_disc_info ;;
  if probe <? 0 then ret (AVERROR EIO) else
  (* load DVD info *)
  vmg_p <- ifoOpen rd 0 ;;
  assign (set_vmg vmg_p) ;;
  match vmg_p with
  | None => ret (AVERROR EIO)
  | Some (_, vmg_i) =>
  if negb (vmgi_mat vmg_i) then ret (AVERROR EIO) else
  match tt_srpt vmg_i with
  | None => ret (AVERROR EIO)
  | Some srpt =>
  (* load title list *)
  let num_title_idx := nr_of_srpts srpt in
  av_log AV_LOG_INFO "%d usable titles\n" [num_title_idx] ;;
  if num_title_idx <? 1 then ret (AVERROR EIO) else
  (* play first title if none is given or exceeds boundary *)
  ctx <- deref ;;
  (if (title ctx <? 1) || (title ctx >? num_title_idx)
   then
     av_log AV_LOG_DEBUG
       "title selection %d out of bounds, switching to title 1\n"
       [title ctx] ;;
     assign (set_title 1)
   else ret tt) ;;
  ctx <- deref ;;
  av_log AV_LOG_INFO "selected title %d\n" [title ctx] ;;
  (* select video title set *)
  match index (tt_title srpt) (int_sub (title ctx) 1) with
  | None => undefined
  | Some ti =>
  assign (set_title_set (title_set_nr ti)) ;;
  ctx <- deref ;;
  av_log AV_LOG_DEBUG "selected video title set %d\n" [title_set ctx] ;;
  (* load title set IFO *)
  vts_p <- ifoOpen rd (title_set ctx) ;;
  assign (set_vts vts_p) ;;
  let vts_failed :=
    av_log AV_LOG_ERROR "Opening video title set failed\n" [] ;;
    ret (AVERROR EIO) in
  let vts_empty :=
    av_log AV_LOG_ERROR "Video title set is empty\n" [] ;;
    ret (AVERROR EIO) in
  match vts_p with
  | None => vts_failed
  | Some (_, vts_i) =>
  if negb (vtsi_mat vts_i) then vts_failed else
  (* sanity checks on video title set *)
  match vts_pgcit vts_i with
  | None => vts_empty
  | Some vts_pgcit_ =>
  match vts_ptt_srpt vts_i with
  | None => vts_empty
  | Some ptt_srpt =>
  match ptt_title ptt_srpt with
  | None => vts_empty
  | Some ttus =>
  (* open DVD file *)
  f <- DVDOpenFile rd (title_set ctx) ;;
  assign (set_file f) ;;
  match f with
  | None => ret (AVERROR EIO)
  | Some fh =>
  (* get ttn *)
  let ttn := vts_ttn ti in
  av_log AV_LOG_INFO "DVD TTN: %d\n" [ttn] ;;
  (* open the program chain *)
  match index ttus (int_sub ttn 1) with
  | None => undefined
  | Some ttu =>
  match index (ptt ttu) 0 with
  | None => undefined
  | Some ptt0 =>
  match index (pgci_srp vts_pgcit_) (int_sub (pgcn ptt0) 1) with
  | None => undefined
  | Some srp =>
  match pgc srp with
  | None =>
      av_log AV_LOG_ERROR "Program chain is broken\n" [] ;;
      ret (AVERROR EIO)
  | Some pgc_ =>
  if negb (cell_playback pgc_)
  then
    av_log AV_LOG_ERROR "Program chain is empty\n" [] ;;
    ret (AVERROR EIO)
  else
  (* cells *)
  assign (set_cells (nr_of_cells pgc_)) ;;
  av_log AV_LOG_DEBUG "number of cells for title: %d\n" [nr_of_cells pgc_] ;;
  (* chapters *)
  assign (set_chapters (nr_of_programs pgc_)) ;;
  av_log AV_LOG_DEBUG "number of chapters for title: %d\n"
    [nr_of_programs pgc_] ;;
  b <- DVDFileSize fh ;;
  assign (set_blocks b) ;;
  assign (fun c => set_size (int_mul (blocks c) DVD_VIDEO_LB_LEN) c) ;;
  (* set cell block offset *)
  assign (set_offset 0) ;;
  ret 0
  end end end end end end end end end end end end end.

End Protocol.

(** ** The other revision ([src/unnamed/part_000])

    Its [DVDContext] has no [cells] and [chapters]; the two fields of the
    shared record are never written here. *)
Module Part000.
Section Protocol.

Variable lib : dvdread.

Definition dvd_open (path : string) (flags : Z) : M Z :=
  let diskname := snd (av_strstart path DVD_PROTO_PREFIX path) in
  reader <- DVDOpen lib diskname ;;
  assign (set_dvd reader) ;;
  match reader with
  | None =>
      av_log AV_LOG_ERROR "DVDOpen() failed\n" [] ;;
      ret (AVERROR EIO)
  | Some rd =>
  (* check if disc can be played *)
  probe <- check_disc_info lib ;;
  if probe <? 0 then ret (AVERROR EIO) else
  (* load DVD info *)
  vmg_p <- ifoOpen lib rd 0 ;;
  assign (set_vmg vmg_p) ;;
  match vmg_p with
  | None => ret (AVERROR EIO)
  | Some (_, vmg_i) =>
  if negb (vmgi_mat vmg_i) then ret (AVERROR EIO) else
  match tt_srpt vmg_i with
  | None => ret (AVERROR EIO)
  | Some srpt =>
  (* load title list *)
  let num_title_idx := nr_of_srpts srpt in
  av_log AV_LOG_INFO "%d usable titles:\n" [num_title_idx] ;;
  if num_title_idx <? 1 then ret (AVERROR EIO) else
  (* play first title if none is given *)
  ctx <- deref ;;
  (if title ctx <? 1 then assign (set_title 1) else ret tt) ;;
  ctx <- deref ;;
  av_log AV_LOG_INFO "selected title %02d\n" [title ctx] ;;
  (* select title *)
  match index (tt_title srpt) (int_sub (title ctx) 1) with
  | None => undefined
  | Some ti =>
  assign (set_title_set (title_set_nr ti)) ;;
  ctx <- deref ;;
  (* open DVD file *)
  f <- DVDOpenFile lib rd (title_set ctx) ;;
  assign (set_file f) ;;
  match f with
  | None => ret (AVERROR EIO)
  | Some fh =>
  b <- DVDFileSize lib fh ;;
  assign (set_blocks b) ;;
  assign (fun c => set_size (int_mul (blocks c) DVD_VIDEO_LB_LEN) c) ;;
  (* set cell block offset *)
  assign (set_offset 0) ;;
  ret 0
  end end end end end.

Definition dvd_seek (pos : Z) (whence : Z) : M Z :=
  h <- get_priv_data ;;
  match h with
  | None => ret (AVERROR EFAULT)
  | Some ctx =>
      match dvd ctx with
      | None => ret (AVERROR EFAULT)
      | Some _ =>
          printf "seek position: %li\n\n" [pos] ;;
          av_log AV_LOG_ERROR "Unsupported whence operation %d\n" [whence] ;;
          ret (AVERROR EINVAL)
      end
  end.

End Protocol.
End Part000.

(** ** Running the protocol *)

(** The state before the first call: the context as allocated, no library
    call made yet. *)
Definition initial_state (t : Z) : state :=
  mk_state (Some (new_context t)) 0 [].

(** [n] calls of [dvd_read] in a row; the results in call order. *)
Fixpoint read_n (lib : dvdread) (n : nat) (s : state) : list (outcome Z) * state :=
  match n with
  | O => ([], s)
  | S n' =>
      let (r, s1) := dvd_read lib s in
      let (rs, s2) := read_n lib n' s1 in
      (r :: rs, s2)
  end.

(** *** A disc for experiments: three titles in two title sets, a title
    file of [B] sectors, every request inside the file answered by one
    sector. *)
Definition demo_pgc : pgc_t := mk_pgc 4 7 true.

Definition demo_vmg : ifo_handle_t :=
  mk_ifo true
    (Some (mk_tt_srpt 3 [mk_title_info 1 1; mk_title_info 1 2; mk_title_info 2 1]))
    false None None.

Definition demo_vts : ifo_handle_t :=
  mk_ifo false None true
    (Some (mk_pgcit [mk_pgci_srp (Some demo_pgc); mk_pgci_srp (Some demo_pgc)]))
    (Some (mk_vts_ptt_srpt
             (Some [mk_ttu [mk_ptt_info 1]; mk_ttu [mk_ptt_info 2]]))).

Definition demo_read (B : Z) (off count : Z) : Z :=
  if (0 <=? off) && (off <? B) then Z.min count (B - off)
  else if off =? B then 0 else -1.

Definition demo_lib (B : Z) : dvdread :=
  mk_dvdread
    (fun _ _ => true)
    (fun _ _ n => if n =? 0 then Some demo_vmg
                  else if n <=? 2 then Some demo_vts else None)
    (fun _ _ _ => true)
    (fun _ _ => B)
    (fun _ _ off count => demo_read B off count).

(** The same disc with a title set whose navigation info and title file
    cannot be opened. *)
Definition no_vts_lib : dvdread :=
  mk_dvdread
    (fun _ _ => true)
    (fun _ _ n => if n =? 0 then Some demo_vmg else None)
    (fun _ _ _ => false)
    (fun _ _ => 0)
    (fun _ _ _ _ => -1).

(** A disc whose title table is empty. *)
Definition empty_vmg : ifo_handle_t :=
  mk_ifo true (Some (mk_tt_srpt 0 [])) false None None.

Definition empty_lib : dvdread :=
  mk_dvdread
    (fun _ _ => true)
    (fun _ _ n => if n =? 0 then Some empty_vmg else None)
    (fun _ _ _ => false)
    (fun _ _ => 0)
    (fun _ _ _ _ => -1).

Definition demo_path : string := "dvd:/dev/sr0".

(** A session as [dvd_open] leaves it on the disc above, without the
    navigation handles. *)
Definition demo_context : DVDContext :=
  mk_ctx (Some 0%nat) None None (Some 4%nat) 10 7 4 20480 0 1 1.

Definition demo_session : state := mk_state (Some demo_context) 6 [].

(** *** What a trace says about handles *)

(** Handles handed out by the library during [tr]. *)
Definition acquired_by (e : event) : list handle :=
  match e with
  | EvDVDOpen _ (Some p) => [p]
  | EvIfoOpen _ _ (Some p) => [p]
  | EvDVDOpenFile _ _ (Some p) => [p]
  | _ => []
  end.

Definition acquired (tr : list event) : list handle := flat_map acquired_by tr.

(** Handles given back to the library during [tr]. *)
Definition released_by (e : event) : list handle :=
  match e with
  | EvDVDClose p => [p]
  | EvIfoClose p => [p]
  | _ => []
  end.

Definition released (tr : list event) : list handle := flat_map released_by tr.

(** Handles handed out and not given back. *)
Definition live (tr : list event) : list handle :=
  filter (fun p => negb (existsb (Nat.eqb p) (released tr))) (acquired tr).

(** The handles a context holds. *)
Definition held (c : DVDContext) : list handle :=
  match dvd c with Some p => [p] | None => [] end ++
  match vmg c with Some (p, _) => [p] | None => [] end ++
  match vts c with Some (p, _) => [p] | None => [] end ++
  match file c with Some p => [p] | None => [] end.

(** The events of one [dvd_close] on context [c]. *)
Definition closing_events (c : DVDContext) : list event :=
  match vmg c with Some (p, _) => [EvIfoClose p] | None => [] end ++
  match vts c with Some (p, _) => [EvIfoClose p] | None => [] end ++
  match dvd c with Some p => [EvDVDClose p] | None => [] end.

(** The clock after one [dvd_close] on context [c]. *)
Definition closing_ticks (c : DVDContext) : nat := List.length (closing_events c).

(** *** The notions the statements use *)

(** The context pointer or its disc handle is null. *)
Definition no_disc (s : state) : Prop :=
  priv_data s = None \/ exists ctx, priv_data s = Some ctx /\ dvd ctx = None.

(** The diagnostics of a refused seek. *)
Definition seek_events (pos whence : Z) : list event :=
  [EvLog AV_LOG_INFO "seek position: %d\n" [pos];
   EvLog AV_LOG_ERROR "Unsupported whence operation %d\n" [whence]].

(** The same in the other revision. *)
Definition seek_events_000 (pos whence : Z) : list event :=
  [EvPrintf "seek position: %li\n\n" [pos];
   EvLog AV_LOG_ERROR "Unsupported whence operation %d\n" [whence]].

(** Either revision of [dvd_open]. *)
Definition is_dvd_open (lib : dvdread) (open : string -> Z -> M Z) : Prop :=
  open = dvd_open lib \/ open = Part000.dvd_open lib.

(** The title table of every volume-level navigation info the library
    hands out has no entry. *)
Definition no_usable_title (lib : dvdread) : Prop :=
  forall now rd i srpt,
    lib_ifoOpen lib now rd 0 = Some i -> tt_srpt i = Some srpt ->
    nr_of_srpts srpt < 1.

(** A disc that opens, whose volume-level navigation info carries the
    title table [srpt], with as many entries as it announces. *)
Definition disc_with_titles (lib : dvdread) (srpt : tt_srpt_t) : Prop :=
  (forall now p, lib_DVDOpen lib now p = true)
  /\ (forall now rd, exists i,
        lib_ifoOpen lib now rd 0 = Some i
        /\ vmgi_mat i = true /\ tt_srpt i = Some srpt)
  /\ Z.of_nat (List.length (tt_title srpt)) = nr_of_srpts srpt.

(** The title [dvd_open] of [dvd.c] settles on. *)
Definition effective_title (t N : Z) : Z :=
  if (1 <=? t) && (t <=? N) then t else 1.

(** The library answers every request for one sector inside a file of [B]
    sectors with that sector. *)
Definition answers_in_file (lib : dvdread) (B : Z) : Prop :=
  forall now f off, 0 <= off < B -> lib_DVDReadBlocks lib now f off 1 = 1.

(** What 11 reads return on a session opened on the 10-sector title. *)
Definition nine_sectors_then_eof (lib : dvdread) (opened : outcome Z * state) : Prop :=
  fst opened = Done 0
  /\ option_map blocks (priv_data (snd opened)) = Some 10
  /\ option_map size (priv_data (snd opened)) = Some 20480
  /\ fst (read_n lib 11 (snd opened)) =
       repeat (Done 2048) 9 ++ [Done AVERROR_EOF; Done AVERROR_EOF]
  /\ nth_error (fst (read_n lib 11 (snd opened))) 9 <> Some (Done 2048).

(** Every title table the library hands out has at least as many entries
    as it announces. *)
Definition well_formed_tables (lib : dvdread) : Prop :=
  forall now rd i srpt,
    lib_ifoOpen lib now rd 0 = Some i -> tt_srpt i = Some srpt ->
    nr_of_srpts srpt <= Z.of_nat (List.length (tt_title srpt)).

(** A one-sector read request. *)
Definition is_sector_request (e : event) : Prop :=
  match e with
  | EvDVDReadBlocks _ _ count _ => count = 1
  | _ => False
  end.

(** A disc that cannot be opened. *)
Definition no_disc_lib : dvdread :=
  mk_dvdread
    (fun _ _ => false)
    (fun _ _ _ => None)
    (fun _ _ _ => false)
    (fun _ _ => 0)
    (fun _ _ _ _ => -1).

(** The demo disc with a drive that fails every sector read. *)
Definition failing_read_lib (B : Z) : dvdread :=
  mk_dvdread
    (lib_DVDOpen (demo_lib B))
    (lib_ifoOpen (demo_lib B))
    (lib_DVDOpenFile (demo_lib B))
    (lib_DVDFileSize (demo_lib B))
    (fun _ _ _ _ => -1).

(** The demo disc with a title entry whose [vts_ttn] points past the
    chapter table of its title set. *)
Definition stray_ttn_vmg : ifo_handle_t :=
  mk_ifo true (Some (mk_tt_srpt 1 [mk_title_info 1 5])) false None None.

Definition stray_ttn_lib : dvdread :=
  mk_dvdread
    (fun _ _ => true)
    (fun _ _ n => if n =? 0 then Some stray_ttn_vmg
                  else if n <=? 2 then Some demo_vts else None)
    (fun _ _ _ => true)
    (fun _ _ => 10)
    (fun _ _ off count => demo_read 10 off count).

(** * Properties *)

(** ** Arithmetic *)

Lemma wrap32_id (z : Z) : int_range z -> wrap32 z = z.
Proof.
  unfold int_range, INT_MIN, INT_MAX, wrap32. intros H.
  rewrite Z.mod_small by lia. lia.
Qed.

Lemma AVERROR_EOF_value : AVERROR_EOF = -541478725.
Proof. reflexivity. Qed.

Lemma error_codes_distinct :
  AVERROR EFAULT <> AVERROR EIO /\ AVERROR EFAULT <> AVERROR EINVAL /\
  AVERROR EFAULT <> AVERROR_EOF /\ AVERROR EIO <> AVERROR EINVAL /\
  AVERROR EIO <> 0 /\ AVERROR EINVAL <> 0 /\ AVERROR_EOF <> 0.
Proof. repeat split; discriminate. Qed.

(** The protocol prefix is stripped, any other locator is kept. *)
Example av_strstart_dvd :
  av_strstart "dvd:/dev/sr0" DVD_PROTO_PREFIX "dvd:/dev/sr0" = (true, "/dev/sr0")
  /\ av_strstart "/dev/sr0" DVD_PROTO_PREFIX "/dev/sr0" = (false, "/dev/sr0").
Proof. split; reflexivity. Qed.

(** Unfolding of the monad and of the library calls. *)
Ltac exec :=
  cbv beta iota zeta delta
    [dvd_open Part000.dvd_open
     dvd_read dvd_seek Part000.dvd_seek dvd_close check_disc_info
     bind ret undefined get_priv_data deref assign emit call av_log printf
     DVDOpen DVDClose ifoOpen ifoClose DVDOpenFile DVDFileSize DVDReadBlocks
     fresh option_map priv_data clock trace fst snd
     set_dvd set_vmg set_vts set_file set_blocks set_cells set_chapters
     set_size set_offset set_title_set set_title
     dvd vmg vts file blocks cells chapters size offset title_set title].

(** ** dvd_read *)

(** One sector requested and no overflow: [len] is the sector size. *)
Lemma len_one_sector : int_mul (wrap32 1) DVD_VIDEO_LB_LEN = 2048.
Proof. reflexivity. Qed.

Lemma len_no_sector : int_mul (wrap32 0) DVD_VIDEO_LB_LEN = 0.
Proof. reflexivity. Qed.

(** The state after a read on an open session, whatever the library
    answered. *)
Lemma dvd_read_state (lib : dvdread) (s : state) (ctx : DVDContext) (rd : handle) :
  priv_data s = Some ctx -> dvd ctx = Some rd ->
  snd (dvd_read lib s) =
    mk_state (Some (set_offset (int_add (offset ctx) 1) ctx))
             (S (clock s))
             (trace s ++ [EvDVDReadBlocks (file ctx) (offset ctx) 1
                (wrap32 (lib_DVDReadBlocks lib (clock s) (file ctx) (offset ctx) 1))]).
Proof.
  destruct s as [pd ck tr]; simpl; intros -> Hd.
  exec. destruct ctx; simpl in *; subst.
  match goal with |- context [if ?b then _ else _] => destruct b end;
    reflexivity.
Qed.

(** The value a read on an open session returns, whatever the library
    answered. *)
Lemma dvd_read_value (lib : dvdread) (s : state) (ctx : DVDContext) (rd : handle) :
  priv_data s = Some ctx -> dvd ctx = Some rd ->
  let len := int_mul (wrap32 (lib_DVDReadBlocks lib (clock s) (file ctx) (offset ctx) 1))
                     DVD_VIDEO_LB_LEN in
  fst (dvd_read lib s) =
    Done (if (len =? 0) || (int_add (offset ctx) 1 >=? blocks ctx)
          then AVERROR_EOF else len).
Proof.
  destruct s as [pd ck tr]; simpl; intros -> Hd.
  exec. destruct ctx; simpl in *; subst.
  match goal with |- context [if ?b then _ else _] => destruct b end;
    reflexivity.
Qed.

(** C2 (as amended).  A read on an open session (context and disc handle
    set, cursor below [INT_MAX]) asks the library for exactly one sector at
    the cursor and moves the cursor up by exactly one, whatever the library
    answers.  For every answer [r] whose byte count fits an [int], the read
    returns end-of-stream if and only if [r] is 0 or the moved cursor has
    reached [blocks]; otherwise it returns [r * 2048], which is 2048 when
    the library returned the one sector. *)
Theorem dvd_read_one_sector
  (lib : dvdread) (s : state) (ctx : DVDContext) (rd : handle) :
  priv_data s = Some ctx -> dvd ctx = Some rd ->
  INT_MIN <= offset ctx < INT_MAX ->
  let r := lib_DVDReadBlocks lib (clock s) (file ctx) (offset ctx) 1 in
  snd (dvd_read lib s) =
    mk_state (Some (set_offset (offset ctx + 1) ctx)) (S (clock s))
             (trace s ++ [EvDVDReadBlocks (file ctx) (offset ctx) 1 (wrap32 r)])
  /\ (-1048576 <= r < 1048576 ->
      exists res, fst (dvd_read lib s) = Done res
        /\ (res = AVERROR_EOF <-> (r = 0 \/ offset ctx + 1 >= blocks ctx))
        /\ (res <> AVERROR_EOF -> res = r * 2048)
        /\ (res <> AVERROR_EOF -> r = 1 -> res = 2048)).
Proof.
  intros Hp Hd Ho r.
  assert (Hadd : int_add (offset ctx) 1 = offset ctx + 1).
  { unfold int_add. apply wrap32_id. unfold int_range, INT_MIN, INT_MAX in *. lia. }
  pose proof (dvd_read_state lib s ctx rd Hp Hd) as Hs.
  pose proof (dvd_read_value lib s ctx rd Hp Hd) as Hv.
  cbv zeta in Hv. fold r in Hs, Hv. rewrite Hadd in Hs, Hv. clearbody r.
  split; [exact Hs|].
  intros Hr. rewrite Hv.
  assert (Hlen : int_mul (wrap32 r) DVD_VIDEO_LB_LEN = r * 2048).
  { unfold int_mul, DVD_VIDEO_LB_LEN.
    rewrite (wrap32_id r) by (unfold int_range, INT_MIN, INT_MAX; lia).
    apply wrap32_id. unfold int_range, INT_MIN, INT_MAX. lia. }
  rewrite Hlen. eexists; split; [reflexivity|].
  destruct (Z.eqb_spec (r * 2048) 0) as [E0 | E0];
    destruct (Z.geb_spec (offset ctx + 1) (blocks ctx)) as [Hge | Hlt];
    cbn [orb]; rewrite ?AVERROR_EOF_value.
  - split; [split; [intros _; left; lia | reflexivity]|]. split; congruence.
  - split; [split; [intros _; left; lia | reflexivity]|]. split; congruence.
  - split; [split; [intros _; right; lia | reflexivity]|]. split; congruence.
  - split; [split; [intros E; lia | intros [E|E]; lia]|].
    split; [reflexivity | intros _ E; lia].
Qed.

(** ** Null context or null disc handle *)

(** C10.  With a null context or a null disc handle, [dvd_read] and
    [dvd_seek] (both revisions) return [AVERROR(EFAULT)] and leave the whole
    state as it was: no library call, no event, cursor and handles
    untouched.  [AVERROR(EFAULT)] differs from the codes of the other
    failures ([AVERROR(EIO)], [AVERROR(EINVAL)]) and from end-of-stream. *)
Theorem null_session_efault (lib : dvdread) (s : state) (pos whence : Z) :
  no_disc s ->
  dvd_read lib s = (Done (AVERROR EFAULT), s)
  /\ dvd_seek pos whence s = (Done (AVERROR EFAULT), s)
  /\ Part000.dvd_seek pos whence s = (Done (AVERROR EFAULT), s)
  /\ AVERROR EFAULT <> AVERROR EIO
  /\ AVERROR EFAULT <> AVERROR EINVAL
  /\ AVERROR EFAULT <> AVERROR_EOF.
Proof.
  intros H.
  assert (E : dvd_read lib s = (Done (AVERROR EFAULT), s)
              /\ dvd_seek pos whence s = (Done (AVERROR EFAULT), s)
              /\ Part000.dvd_seek pos whence s = (Done (AVERROR EFAULT), s)).
  { destruct s as [pd ck tr]. destruct H as [Hn | [ctx [Hn Hd]]]; simpl in Hn; subst pd.
    - repeat split.
    - exec. destruct ctx; simpl in Hd; subst. repeat split. }
  destruct E as (E1 & E2 & E3).
  repeat split; auto; discriminate.
Qed.

(** ** dvd_seek *)

(** Reads do not look at the trace. *)
Lemma dvd_read_trace_irrelevant (lib : dvdread) (s1 s2 : state) :
  priv_data s1 = priv_data s2 -> clock s1 = clock s2 ->
  fst (dvd_read lib s1) = fst (dvd_read lib s2)
  /\ priv_data (snd (dvd_read lib s1)) = priv_data (snd (dvd_read lib s2))
  /\ clock (snd (dvd_read lib s1)) = clock (snd (dvd_read lib s2)).
Proof.
  destruct s1 as [pd1 ck1 tr1], s2 as [pd2 ck2 tr2]; simpl; intros <- <-.
  exec. destruct pd1 as [c|]; [|repeat split].
  destruct c as [d ? ? ? ? ? ? ? ? ? ?]; destruct d; [|repeat split].
  match goal with |- context [if ?b then _ else _] => destruct b end;
    repeat split.
Qed.

Lemma read_n_trace_irrelevant (lib : dvdread) (n : nat) :
  forall s1 s2,
  priv_data s1 = priv_data s2 -> clock s1 = clock s2 ->
  fst (read_n lib n s1) = fst (read_n lib n s2)
  /\ priv_data (snd (read_n lib n s1)) = priv_data (snd (read_n lib n s2)).
Proof.
  induction n as [|n IH]; intros s1 s2 Hp Hc; simpl.
  - auto.
  - destruct (dvd_read_trace_irrelevant lib s1 s2 Hp Hc) as (Hr & Hp' & Hc').
    destruct (dvd_read lib s1) as [r1 t1], (dvd_read lib s2) as [r2 t2].
    simpl in *. specialize (IH t1 t2 Hp' Hc').
    destruct (read_n lib n t1) as [rs1 u1], (read_n lib n t2) as [rs2 u2].
    simpl in *. destruct IH as [-> ->]. subst. auto.
Qed.

Lemma dvd_seek_open (s : state) (ctx : DVDContext) (rd : handle) (pos whence : Z) :
  priv_data s = Some ctx -> dvd ctx = Some rd ->
  dvd_seek pos whence s =
    (Done (AVERROR EINVAL),
     mk_state (priv_data s) (clock s) (trace s ++ seek_events pos whence))
  /\ Part000.dvd_seek pos whence s =
    (Done (AVERROR EINVAL),
     mk_state (priv_data s) (clock s) (trace s ++ seek_events_000 pos whence)).
Proof.
  destruct s as [pd ck tr]; simpl; intros -> Hd.
  exec. destruct ctx; simpl in Hd; subst.
  rewrite <- !app_assoc. split; reflexivity.
Qed.

(** C7.  On an open session every seek, whatever the position and the
    origin, returns [AVERROR(EINVAL)] in both revisions; it only writes its
    two diagnostics (the second names the origin), makes no library call
    and leaves the context, with all handles and the cursor, as it was, so
    that any number of reads afterwards returns what it would have returned
    without the seek and leaves the same context. *)
Theorem dvd_seek_refused
  (lib : dvdread) (s : state) (ctx : DVDContext) (rd : handle)
  (pos whence : Z) (n : nat) :
  priv_data s = Some ctx -> dvd ctx = Some rd ->
  forall seek, seek = dvd_seek \/ seek = Part000.dvd_seek ->
  fst (seek pos whence s) = Done (AVERROR EINVAL)
  /\ priv_data (snd (seek pos whence s)) = Some ctx
  /\ clock (snd (seek pos whence s)) = clock s
  /\ acquired (trace (snd (seek pos whence s))) = acquired (trace s)
  /\ released (trace (snd (seek pos whence s))) = released (trace s)
  /\ In (EvLog AV_LOG_ERROR "Unsupported whence operation %d\n" [whence])
        (trace (snd (seek pos whence s)))
  /\ fst (read_n lib n (snd (seek pos whence s))) = fst (read_n lib n s)
  /\ priv_data (snd (read_n lib n (snd (seek pos whence s))))
     = priv_data (snd (read_n lib n s)).
Proof.
  intros Hp Hd seek Hs.
  destruct (dvd_seek_open s ctx rd pos whence Hp Hd) as [E1 E2].
  assert (E : exists evs, seek pos whence s =
             (Done (AVERROR EINVAL),
              mk_state (priv_data s) (clock s) (trace s ++ evs))
             /\ acquired evs = [] /\ released evs = []
             /\ In (EvLog AV_LOG_ERROR "Unsupported whence operation %d\n" [whence]) evs).
  { destruct Hs; subst seek; eexists; (split; [eassumption|]);
      repeat split; simpl; auto. }
  destruct E as (evs & E & Ha & Hr & Hin). rewrite E. simpl.
  unfold acquired, released in *. rewrite !flat_map_app, Ha, Hr, !app_nil_r.
  repeat split; auto.
  - apply in_or_app; right; assumption.
  - apply read_n_trace_irrelevant; reflexivity.
  - apply read_n_trace_irrelevant; reflexivity.
Qed.

(** ** dvd_close *)

Lemma dvd_close_run (s : state) (ctx : DVDContext) :
  priv_data s = Some ctx ->
  dvd_close s =
    (Done 0, mk_state (Some ctx) (clock s + closing_ticks ctx)%nat
                      (trace s ++ closing_events ctx)).
Proof.
  destruct s as [pd ck tr]; simpl; intros ->.
  unfold closing_ticks, closing_events. exec.
  destruct ctx as [d vm vt f ? ? ? ? ? ? ?]; simpl.
  destruct vm as [[p1 ?]|], vt as [[p2 ?]|], d as [p3|]; simpl;
    rewrite <- ?app_assoc, ?app_nil_r, ?Nat.add_0_r; simpl;
    repeat f_equal; lia.
Qed.

(** C8 (as amended).  [dvd_close] returns 0 and releases, in this order,
    the volume-level navigation info [vmg], then the title-set navigation
    info [vts], then the disc handle [dvd]; a handle that is null is
    skipped, so that a context without handles is closed without any
    library call.  The context itself is not modified. *)
Theorem dvd_close_releases_in_order (s : state) (ctx : DVDContext) :
  priv_data s = Some ctx ->
  fst (dvd_close s) = Done 0
  /\ priv_data (snd (dvd_close s)) = Some ctx
  /\ trace (snd (dvd_close s)) =
       trace s
       ++ match vmg ctx with Some (p, _) => [EvIfoClose p] | None => [] end
       ++ match vts ctx with Some (p, _) => [EvIfoClose p] | None => [] end
       ++ match dvd ctx with Some p => [EvDVDClose p] | None => [] end
  /\ (vmg ctx = None -> vts ctx = None -> dvd ctx = None ->
      trace (snd (dvd_close s)) = trace s
      /\ clock (snd (dvd_close s)) = clock s).
Proof.
  intros Hp. rewrite (dvd_close_run s ctx Hp). simpl.
  split; [reflexivity|]. split; [reflexivity|]. split; [reflexivity|].
  unfold closing_ticks, closing_events. intros -> -> ->. simpl.
  split; [apply app_nil_r | lia].
Qed.

(** C9 (as amended).  [dvd_close] leaves every handle field as it found
    it, so a second [dvd_close] repeats exactly the release calls of the
    first one; only handles that were null from the start are skipped. *)
Theorem dvd_close_twice_repeats (s : state) (ctx : DVDContext) :
  priv_data s = Some ctx ->
  let s1 := snd (dvd_close s) in
  let s2 := snd (dvd_close s1) in
  priv_data s1 = Some ctx
  /\ trace s1 = trace s ++ closing_events ctx
  /\ fst (dvd_close s1) = Done 0
  /\ priv_data s2 = Some ctx
  /\ trace s2 = trace s1 ++ closing_events ctx.
Proof.
  intros Hp s1 s2. subst s2 s1.
  rewrite (dvd_close_run s ctx Hp). simpl.
  rewrite (dvd_close_run (mk_state (Some ctx) _ _) ctx eq_refl). simpl. auto.
Qed.

(** ** dvd_open *)

(** Case analysis along the control flow: the goal is [Q run] for a run
    that is stuck on a test; the test at its head is rewritten when a
    hypothesis gives its value, and split otherwise. *)
Ltac head_scrutinee x :=
  lazymatch x with
  | match ?y with _ => _ end => inner_scrutinee y
  | ?f _ => head_scrutinee f
  end
with inner_scrutinee y :=
  match y with
  | _ => head_scrutinee y
  | _ => y
  end.

Ltac step_with tac :=
  lazymatch goal with
  | |- ?Q ?t =>
      let y := head_scrutinee t in
      first [ match goal with H : y = _ |- _ => rewrite H end
            | is_var y; destruct y
            | destruct y eqn:? ];
      cbv beta iota;
      try solve [tac]
  end.

Ltac absurd_test :=
  idtac;
  match goal with
  | H : _ = _ |- _ => discriminate H
  end.

(** Set up the case analysis of an [open] run from a state whose context
    is [Some ctx]: the disc name becomes a variable, the fields of [ctx]
    become variables. *)
Ltac run_of t :=
  pattern t;
  lazymatch goal with
  | |- ?q t => let Q := fresh "Q" in set (Q := q)
  end;
  unfold dvd_open, Part000.dvd_open;
  try (set (diskname := snd (av_strstart _ _ _)); clearbody diskname);
  exec.

(** C6.  On a disc whose title table reports fewer than one entry,
    [dvd_open] (either revision) returns [AVERROR(EIO)], the code of every
    navigation failure, which is not the success value 0; neither the
    title-set navigation info nor the title file is opened. *)
Theorem dvd_open_no_titles
  (lib : dvdread) (open : string -> Z -> M Z) (path : string) (flags : Z)
  (s : state) (ctx : DVDContext) :
  is_dvd_open lib open -> priv_data s = Some ctx -> no_usable_title lib ->
  fst (open path flags s) = Done (AVERROR EIO)
  /\ AVERROR EIO <> 0
  /\ exists c', priv_data (snd (open path flags s)) = Some c'
       /\ vts c' = vts ctx /\ file c' = file ctx.
Proof.
  intros Ho Hp Hno.
  destruct s as [pd ck tr]; simpl in Hp; subst pd.
  assert (Habs : forall now rd i srpt,
             lib_ifoOpen lib now rd 0 = Some i -> tt_srpt i = Some srpt ->
             (nr_of_srpts srpt <? 1) = false -> False).
  { intros now rd i srpt Hi Ht Hn. apply Z.ltb_ge in Hn.
    pose proof (Hno now rd i srpt Hi Ht). lia. }
  destruct ctx as [d vm vt f b ce ch sz o ts t].
  destruct Ho; subst open;
    match goal with |- context [?op lib path flags ?st] => run_of (op lib path flags st) end;
    repeat step_with ltac:(first [absurd_test | exfalso; eapply Habs; eassumption]);
    subst Q; cbv beta; cbn [fst snd priv_data vts file];
    (split; [reflexivity | split; [discriminate | eexists; repeat split]]).
Qed.

(** What a successful [dvd_open] leaves behind. *)
Lemma dvd_open_ready
  (lib : dvdread) (open : string -> Z -> M Z) (path : string) (flags : Z)
  (s s' : state) (ctx : DVDContext) :
  is_dvd_open lib open -> priv_data s = Some ctx ->
  open path flags s = (Done 0, s') ->
  exists c' rd fh,
    priv_data s' = Some c' /\ dvd c' = Some rd /\ file c' = Some fh
    /\ offset c' = 0
    /\ size c' = int_mul (blocks c') DVD_VIDEO_LB_LEN
    /\ In (EvDVDFileSize fh (blocks c')) (trace s').
Proof.
  intros Ho Hp. revert s'.
  destruct s as [pd ck tr]; simpl in Hp; subst pd.
  destruct ctx as [d vm vt f b ce ch sz o ts t].
  destruct Ho; subst open;
    match goal with |- context [?op lib path flags ?st] => run_of (op lib path flags st) end;
    repeat step_with absurd_test;
    subst Q; cbv beta; intros s' E; inversion E; subst; clear E;
    cbn [priv_data trace];
    do 3 eexists; cbn [dvd file offset size blocks];
    (repeat split; try reflexivity);
    apply in_or_app; right; left; reflexivity.
Qed.

(** C4 (as amended).  Every failure of [dvd_open] (either revision)
    returns [AVERROR(EIO)] and releases nothing: the run makes no release
    call, so every handle acquired before the failing step is still open
    when [dvd_open] returns.  Apart from the handle of the playability
    probe (the second library call), every acquired handle is held in a
    field of the context, and the context holds nothing else that was not
    there before. *)
Theorem dvd_open_failure_releases_nothing
  (lib : dvdread) (open : string -> Z -> M Z) (path : string) (flags : Z)
  (s s' : state) (ctx : DVDContext) (res : Z) :
  is_dvd_open lib open -> priv_data s = Some ctx ->
  open path flags s = (Done res, s') -> res <> 0 ->
  res = AVERROR EIO
  /\ exists evs c',
       trace s' = trace s ++ evs
       /\ released evs = []
       /\ live evs = acquired evs
       /\ priv_data s' = Some c'
       /\ incl (acquired evs) (held c' ++ [S (clock s)])
       /\ incl (held c') (held ctx ++ acquired evs).
Proof.
  intros Ho Hp. revert res s'.
  destruct s as [pd ck tr]; simpl in Hp; subst pd.
  destruct ctx as [d vm vt f b ce ch sz o ts t].
  destruct Ho; subst open;
    match goal with |- context [?op lib path flags ?st] => run_of (op lib path flags st) end;
    repeat step_with absurd_test;
    subst Q; cbv beta; intros res s' E Hne; inversion E; subst; clear E;
    try (exfalso; apply Hne; reflexivity);
    (split; [reflexivity|]);
    cbn [priv_data trace clock]; rewrite <- ?app_assoc;
    do 2 eexists;
    (split; [reflexivity|]);
    (split; [reflexivity|]);
    (split; [reflexivity|]);
    (split; [reflexivity|]);
    unfold held; cbn [dvd vmg vts file];
    split; intros x; rewrite ?in_app_iff; simpl; tauto.
Qed.

(** *** Title selection *)

Lemma index_Some {A : Type} (a : list A) (i : Z) :
  0 <= i < Z.of_nat (List.length a) -> exists x, index a i = Some x.
Proof.
  intros Hi. unfold index.
  destruct (Z.ltb_spec i 0) as [Hneg | _]; [lia|].
  destruct (nth_error a (Z.to_nat i)) as [x|] eqn:E; [eauto|].
  apply nth_error_None in E. lia.
Qed.

Lemma index_None {A : Type} (a : list A) (i : Z) :
  Z.of_nat (List.length a) <= i -> index a i = None.
Proof.
  intros Hi. unfold index.
  destruct (Z.ltb_spec i 0) as [Hneg | _]; [reflexivity|].
  apply nth_error_None. lia.
Qed.

(** X17.  On a disc with [N >= 1] usable titles, [dvd_open] of [dvd.c],
    asked for title [t], leaves [title] at [t] when [1 <= t <= N] and at 1
    when [t < 1] (which covers the default -1) or [t > N]; [title_set] is
    the [title_set_nr] of the title-table entry at position
    [title - 1].  This holds whatever the later steps of [dvd_open] do. *)
Theorem dvd_open_selects_title
  (lib : dvdread) (path : string) (flags : Z) (s : state) (ctx : DVDContext)
  (srpt : tt_srpt_t) :
  priv_data s = Some ctx -> int_range (title ctx) ->
  disc_with_titles lib srpt -> 1 <= nr_of_srpts srpt ->
  let t := title ctx in
  let N := nr_of_srpts srpt in
  exists c' ti,
    priv_data (snd (dvd_open lib path flags s)) = Some c'
    /\ (1 <= t <= N -> title c' = t)
    /\ (t < 1 \/ t > N -> title c' = 1)
    /\ title c' = effective_title t N
    /\ index (tt_title srpt) (title c' - 1) = Some ti
    /\ title_set c' = title_set_nr ti.
Proof.
  intros Hp Ht (Hopen & Hifo & Hlen) HN.
  destruct s as [pd ck tr]; simpl in Hp; subst pd.
  destruct ctx as [d vm vt f b ce ch sz o ts t].
  cbn [title] in *. cbv zeta.
  destruct (Hifo (S ck) ck) as (i1 & E1 & _ & _).
  destruct (Hifo (S (S ck)) ck) as (i2 & E2 & Em & Et).
  assert (Em' : negb (vmgi_mat i2) = false) by (rewrite Em; reflexivity).
  assert (En : (nr_of_srpts srpt <? 1) = false) by (apply Z.ltb_ge; lia).
  unfold int_range, INT_MIN, INT_MAX in Ht.
  match goal with |- context [dvd_open lib path flags ?st] =>
    run_of (dvd_open lib path flags st) end.
  pose proof (Hopen ck diskname) as E0.
  destruct ((t <? 1) || (t >? nr_of_srpts srpt)) eqn:Eclamp.
  - (* out of bounds: switched to title 1 *)
    destruct (index_Some (tt_title srpt) 0) as [ti Hti]; [lia|].
    change 0 with (int_sub 1 1) in Hti.
    assert (Heff : effective_title t (nr_of_srpts srpt) = 1).
    { unfold effective_title. apply orb_true_iff in Eclamp.
      destruct Eclamp as [H|H].
      - apply Z.ltb_lt in H.
        destruct (Z.leb_spec 1 t); [lia|reflexivity].
      - apply Z.gtb_lt in H.
        destruct (Z.leb_spec 1 t), (Z.leb_spec t (nr_of_srpts srpt));
          simpl; try reflexivity; lia. }
    assert (Hout : 1 <= t <= nr_of_srpts srpt -> 1 = t).
    { intros Hin. apply orb_true_iff in Eclamp.
      destruct Eclamp as [H|H];
        [apply Z.ltb_lt in H | apply Z.gtb_lt in H]; lia. }
    repeat step_with absurd_test;
      subst Q; cbv beta; cbn [snd priv_data];
      do 2 eexists; (split; [reflexivity|]); cbn [title title_set];
      (split; [exact Hout|]); (split; [reflexivity|]);
      (split; [symmetry; exact Heff|]); (split; [exact Hti | reflexivity]).
  - (* in bounds: the requested title *)
    pose proof Eclamp as Hin.
    apply orb_false_iff in Hin. destruct Hin as [H1 H2].
    apply Z.ltb_ge in H1. rewrite Z.gtb_ltb in H2. apply Z.ltb_ge in H2.
    assert (Hsub : int_sub t 1 = t - 1).
    { unfold int_sub. apply wrap32_id. unfold int_range, INT_MIN, INT_MAX. lia. }
    destruct (index_Some (tt_title srpt) (t - 1)) as [ti Hti]; [lia|].
    pose proof Hti as Hti'. rewrite <- Hsub in Hti'.
    assert (Heff : effective_title t (nr_of_srpts srpt) = t).
    { unfold effective_title.
      destruct (Z.leb_spec 1 t), (Z.leb_spec t (nr_of_srpts srpt));
        simpl; try reflexivity; lia. }
    repeat step_with absurd_test;
      subst Q; cbv beta; cbn [snd priv_data];
      do 2 eexists; (split; [reflexivity|]); cbn [title title_set];
      (split; [reflexivity|]); (split; [lia|]);
      (split; [symmetry; exact Heff|]); (split; [exact Hti | reflexivity]).
Qed.

(** X11.  The other revision only replaces a missing title: a title above
    the table is kept, and the lookup of its entry leaves the table. *)
Lemma part000_open_keeps_title_above
  (lib : dvdread) (path : string) (flags : Z) (s : state) (ctx : DVDContext)
  (srpt : tt_srpt_t) :
  priv_data s = Some ctx -> int_range (title ctx) ->
  disc_with_titles lib srpt -> 1 <= nr_of_srpts srpt ->
  nr_of_srpts srpt < title ctx ->
  fst (Part000.dvd_open lib path flags s) = Undefined
  /\ exists c', priv_data (snd (Part000.dvd_open lib path flags s)) = Some c'
       /\ title c' = title ctx.
Proof.
  intros Hp Ht (Hopen & Hifo & Hlen) HN Habove.
  destruct s as [pd ck tr]; simpl in Hp; subst pd.
  destruct ctx as [d vm vt f b ce ch sz o ts t].
  cbn [title] in *.
  destruct (Hifo (S ck) ck) as (i1 & E1 & _ & _).
  destruct (Hifo (S (S ck)) ck) as (i2 & E2 & Em & Et).
  assert (Em' : negb (vmgi_mat i2) = false) by (rewrite Em; reflexivity).
  assert (En : (nr_of_srpts srpt <? 1) = false) by (apply Z.ltb_ge; lia).
  assert (E1t : (t <? 1) = false) by (apply Z.ltb_ge; lia).
  unfold int_range, INT_MIN, INT_MAX in Ht.
  assert (Hsub : int_sub t 1 = t - 1).
  { unfold int_sub. apply wrap32_id. unfold int_range, INT_MIN, INT_MAX. lia. }
  assert (Hti : index (tt_title srpt) (int_sub t 1) = None).
  { rewrite Hsub. apply index_None. lia. }
  match goal with |- context [Part000.dvd_open lib path flags ?st] =>
    run_of (Part000.dvd_open lib path flags st) end.
  pose proof (Hopen ck diskname) as E0.
  repeat step_with absurd_test.
  subst Q; cbv beta; cbn [fst snd priv_data].
  split; [reflexivity | eexists; split; reflexivity].
Qed.

(** ** Sequences of reads *)

Lemma read_n_S (lib : dvdread) (n : nat) (s : state) :
  fst (read_n lib (S n) s) =
    fst (dvd_read lib s) :: fst (read_n lib n (snd (dvd_read lib s)))
  /\ snd (read_n lib (S n) s) = snd (read_n lib n (snd (dvd_read lib s))).
Proof.
  simpl. destruct (dvd_read lib s) as [r s1]. simpl.
  destruct (read_n lib n s1) as [rs s2]. split; reflexivity.
Qed.

Lemma read_n_snoc (lib : dvdread) (n : nat) :
  forall s,
  fst (read_n lib (n + 1) s) =
    fst (read_n lib n s) ++ [fst (dvd_read lib (snd (read_n lib n s)))].
Proof.
  induction n as [|n IH]; intros s.
  - simpl. destruct (dvd_read lib s); reflexivity.
  - change (S n + 1)%nat with (S (n + 1)).
    destruct (read_n_S lib (n + 1) s) as [-> _].
    destruct (read_n_S lib n s) as [-> ->].
    rewrite IH. reflexivity.
Qed.

Lemma set_offset_same (c : DVDContext) : set_offset (offset c + 0) c = c.
Proof. destruct c. unfold set_offset. simpl. rewrite Z.add_0_r. reflexivity. Qed.

(** After [n] reads the cursor has moved up by [n]; nothing else in the
    context has changed. *)
Lemma read_n_cursor (lib : dvdread) (n : nat) :
  forall s c rd,
  priv_data s = Some c -> dvd c = Some rd ->
  INT_MIN <= offset c -> offset c + Z.of_nat n <= INT_MAX ->
  priv_data (snd (read_n lib n s)) = Some (set_offset (offset c + Z.of_nat n) c).
Proof.
  induction n as [|n IH]; intros s c rd Hp Hd Hlo Hhi.
  - simpl. rewrite set_offset_same. exact Hp.
  - destruct (read_n_S lib n s) as [_ ->].
    assert (Hadd : int_add (offset c) 1 = offset c + 1).
    { unfold int_add. apply wrap32_id. unfold int_range. lia. }
    rewrite (IH (snd (dvd_read lib s)) (set_offset (offset c + 1) c) rd).
    + destruct c. unfold set_offset. simpl. do 2 f_equal. lia.
    + rewrite (dvd_read_state lib s c rd Hp Hd), Hadd. reflexivity.
    + destruct c; exact Hd.
    + destruct c; simpl in *. lia.
    + destruct c; simpl in *. lia.
Qed.

(** Reads that leave the cursor below [blocks] return a sector. *)
Lemma reads_below_last (lib : dvdread) (B : Z) (n : nat) :
  forall s c rd,
  priv_data s = Some c -> dvd c = Some rd -> blocks c = B ->
  0 <= offset c -> offset c + Z.of_nat n < B -> B <= INT_MAX ->
  answers_in_file lib B ->
  fst (read_n lib n s) = repeat (Done 2048) n.
Proof.
  induction n as [|n IH]; intros s c rd Hp Hd Hb Hlo Hhi HB Hlib.
  - reflexivity.
  - destruct (read_n_S lib n s) as [-> _].
    assert (Hadd : int_add (offset c) 1 = offset c + 1).
    { unfold int_add. apply wrap32_id. unfold int_range, INT_MIN. lia. }
    rewrite (dvd_read_value lib s c rd Hp Hd). cbv zeta.
    rewrite (Hlib (clock s) (file c) (offset c)) by lia.
    rewrite len_one_sector, Hadd.
    destruct (Z.geb_spec (offset c + 1) (blocks c)) as [Hge|_]; [lia|].
    simpl. f_equal.
    apply (IH _ (set_offset (offset c + 1) c) rd);
      [ rewrite (dvd_read_state lib s c rd Hp Hd), Hadd; reflexivity
      | destruct c; exact Hd
      | destruct c; exact Hb
      | destruct c; simpl in *; lia
      | destruct c; simpl in *; lia
      | assumption
      | assumption ].
Qed.

(** The read that moves the cursor onto [blocks] reports end-of-stream,
    whatever the library answered. *)
Lemma read_reaching_blocks (lib : dvdread) (s : state) (c : DVDContext) (rd : handle) :
  priv_data s = Some c -> dvd c = Some rd ->
  INT_MIN <= offset c < INT_MAX -> blocks c <= offset c + 1 ->
  fst (dvd_read lib s) = Done AVERROR_EOF.
Proof.
  intros Hp Hd Ho Hb.
  assert (Hadd : int_add (offset c) 1 = offset c + 1).
  { unfold int_add. apply wrap32_id. unfold int_range. lia. }
  rewrite (dvd_read_value lib s c rd Hp Hd). cbv zeta. rewrite Hadd.
  destruct (Z.geb_spec (offset c + 1) (blocks c)) as [_|Hlt]; [|lia].
  rewrite orb_true_r. reflexivity.
Qed.

(** X8.  On a title file of [B >= 1] sectors with a library that delivers
    every sector, the first [B - 1] reads return 2048 and the [B]-th read,
    the one that fetches the last sector, reports end-of-stream. *)
Lemma last_sector_reported_as_eof
  (lib : dvdread) (B : Z) (s : state) (c : DVDContext) (rd : handle) :
  priv_data s = Some c -> dvd c = Some rd -> blocks c = B -> offset c = 0 ->
  1 <= B <= INT_MAX -> answers_in_file lib B ->
  fst (read_n lib (Z.to_nat (B - 1) + 1) s) =
    repeat (Done 2048) (Z.to_nat (B - 1)) ++ [Done AVERROR_EOF].
Proof.
  intros Hp Hd Hb Ho HB Hlib.
  rewrite read_n_snoc. f_equal.
  - apply (reads_below_last lib B _ s c rd); auto; lia.
  - f_equal.
    pose proof (read_n_cursor lib (Z.to_nat (B - 1)) s c rd Hp Hd) as Hc.
    unfold INT_MIN, INT_MAX in *.
    rewrite Ho in Hc. specialize (Hc ltac:(lia) ltac:(lia)).
    apply (read_reaching_blocks lib _ _ rd Hc).
    + destruct c; exact Hd.
    + destruct c; simpl in *; unfold INT_MIN, INT_MAX; lia.
    + destruct c; simpl in *; lia.
Qed.

(** C5 (as amended).  After a successful [dvd_open] (either revision) the
    cursor is 0, and every [dvd_read] moves it up by exactly one without
    touching [blocks]: after [n] reads it is [n].  It therefore lies in
    [0, blocks] as long as at most [blocks] reads have been made. *)
Theorem cursor_counts_reads
  (lib : dvdread) (open : string -> Z -> M Z) (path : string) (flags : Z)
  (s s1 : state) (ctx : DVDContext) (n : nat) :
  is_dvd_open lib open -> priv_data s = Some ctx ->
  open path flags s = (Done 0, s1) ->
  Z.of_nat n <= INT_MAX ->
  exists c1 cn,
    priv_data s1 = Some c1 /\ offset c1 = 0
    /\ priv_data (snd (read_n lib n s1)) = Some cn
    /\ offset cn = Z.of_nat n
    /\ blocks cn = blocks c1
    /\ (Z.of_nat n <= blocks c1 -> 0 <= offset cn <= blocks cn).
Proof.
  intros Ho Hp Hopen Hn.
  destruct (dvd_open_ready lib open path flags s s1 ctx Ho Hp Hopen)
    as (c1 & rd & fh & Hp1 & Hd1 & _ & Ho1 & _).
  pose proof (read_n_cursor lib n s1 c1 rd Hp1 Hd1) as Hc.
  rewrite Ho1 in Hc. unfold INT_MIN in Hc.
  specialize (Hc ltac:(lia) ltac:(lia)).
  exists c1, (set_offset (0 + Z.of_nat n) c1).
  repeat split; auto; destruct c1; simpl in *; lia.
Qed.

(** ** The protocol on concrete discs *)

Lemma demo_answers_in_file (B : Z) : answers_in_file (demo_lib B) B.
Proof.
  intros now f off H. simpl. unfold demo_read.
  destruct (Z.leb_spec 0 off), (Z.ltb_spec off B); simpl; lia.
Qed.

(** C1 (the code at the failing input).  A title file of 10 sectors, every
    sector delivered by the library: [dvd_open] (either revision) succeeds
    with [blocks = 10] and [size = 20480], but only the first 9 reads return
    2048; the 10th read, which fetches the last sector, already reports
    end-of-stream, as does the 11th. *)
Example ten_sector_title_reads :
  answers_in_file (demo_lib 10) 10
  /\ nine_sectors_then_eof (demo_lib 10)
       (dvd_open (demo_lib 10) demo_path 0 (initial_state title_default))
  /\ nine_sectors_then_eof (demo_lib 10)
       (Part000.dvd_open (demo_lib 10) demo_path 0 (initial_state title_default)).
Proof.
  split; [apply demo_answers_in_file|].
  split; vm_compute; repeat split; discriminate.
Qed.

(** C4 (counterexample).  The title-set navigation info cannot be opened:
    [dvd_open] returns [AVERROR(EIO)] with the disc handle and both
    volume-level navigation handles still open. *)
Lemma dvd_open_failure_leaks :
  let failed := dvd_open no_vts_lib demo_path 0 (initial_state title_default) in
  fst failed = Done (AVERROR EIO)
  /\ released (trace (snd failed)) = []
  /\ live (trace (snd failed)) = [0; 1; 2]%nat
  /\ live (trace (snd failed)) <> [].
Proof. vm_compute. repeat split; discriminate. Qed.

(** C5 (counterexample).  A title file of one sector: the read after
    end-of-stream moves the cursor to 2, above [blocks = 1]. *)
Lemma cursor_exceeds_blocks :
  let lib := demo_lib 1 in
  let opened := dvd_open lib demo_path 0 (initial_state title_default) in
  fst opened = Done 0
  /\ fst (read_n lib 2 (snd opened)) = [Done AVERROR_EOF; Done AVERROR_EOF]
  /\ exists c, priv_data (snd (read_n lib 2 (snd opened))) = Some c
       /\ blocks c = 1 /\ offset c = 2 /\ ~ (0 <= offset c <= blocks c).
Proof.
  vm_compute. repeat split. eexists. repeat split.
  intros [_ H]. apply H. reflexivity.
Qed.

(** C8 (counterexample).  After opening title 2 of the demo disc the
    volume info is handle 2, the title-set info handle 3, the disc handle
    0: [dvd_close] releases 2, then 3, then 0, not the title-set info
    first. *)
Lemma dvd_close_volume_info_first :
  let opened := snd (dvd_open (demo_lib 10) demo_path 0 (initial_state 2)) in
  option_map (fun c => (option_map fst (vmg c), option_map fst (vts c), dvd c))
             (priv_data opened)
    = Some (Some 2%nat, Some 3%nat, Some 0%nat)
  /\ released (trace opened) = []
  /\ released (trace (snd (dvd_close opened))) = [2; 3; 0]%nat
  /\ released (trace (snd (dvd_close opened))) <> [3; 2; 0]%nat.
Proof. vm_compute. repeat split; discriminate. Qed.

(** C9 (counterexample).  Closing the same session twice releases each of
    the three handles twice. *)
Lemma dvd_close_twice_releases_twice :
  let opened := snd (dvd_open (demo_lib 10) demo_path 0 (initial_state 2)) in
  let closed := snd (dvd_close opened) in
  released (trace closed) = [2; 3; 0]%nat
  /\ released (trace (snd (dvd_close closed))) = [2; 3; 0; 2; 3; 0]%nat
  /\ trace (snd (dvd_close closed)) <> trace closed.
Proof. vm_compute. repeat split; discriminate. Qed.

(** C2 (counterexample).  The drive fails the sector read and the library
    answers -1: with the moved cursor still below [blocks], [dvd_read]
    returns -2048, which is neither end-of-stream nor 2048. *)
Lemma dvd_read_error_answer :
  lib_DVDReadBlocks (failing_read_lib 10) (clock demo_session)
    (file demo_context) (offset demo_context) 1 = -1
  /\ offset demo_context + 1 < blocks demo_context
  /\ fst (dvd_read (failing_read_lib 10) demo_session) = Done (-2048)
  /\ -2048 <> AVERROR_EOF /\ -2048 <> 2048.
Proof. vm_compute. repeat split; discriminate. Qed.

(** C3 (the code at the failing input).  Title 7 is requested on the demo
    disc, whose title table has 3 entries.  [dvd_open] of [dvd.c] switches
    to title 1 and takes the title set from entry 0; the other revision
    keeps title 7, and its lookup of entry 6 leaves the table. *)
Example title_seven_of_three :
  let table := [mk_title_info 1 1; mk_title_info 1 2; mk_title_info 2 1] in
  let clamped := dvd_open (demo_lib 10) demo_path 0 (initial_state 7) in
  let other := Part000.dvd_open (demo_lib 10) demo_path 0 (initial_state 7) in
  option_map tt_title (tt_srpt demo_vmg) = Some table
  /\ fst clamped = Done 0
  /\ option_map title (priv_data (snd clamped)) = Some 1
  /\ option_map title_set (priv_data (snd clamped))
     = option_map title_set_nr (index table 0)
  /\ option_map title (priv_data (snd other)) = Some 7
  /\ index table (7 - 1) = None
  /\ fst other = Undefined.
Proof. vm_compute. repeat split. Qed.

(** ** The theorems at concrete inputs *)

Lemma dvd_read_one_sector_witness :
  INT_MIN <= offset demo_context < INT_MAX
  /\ snd (dvd_read (demo_lib 10) demo_session) =
       mk_state (Some (set_offset 1 demo_context)) 7
                [EvDVDReadBlocks (Some 4%nat) 0 1 1]
  /\ fst (dvd_read (demo_lib 10) demo_session) = Done 2048.
Proof.
  assert (H : INT_MIN <= offset demo_context < INT_MAX)
    by (unfold INT_MIN, INT_MAX; simpl; lia).
  split; [exact H|].
  destruct (dvd_read_one_sector (demo_lib 10) demo_session demo_context 0%nat
              eq_refl eq_refl H) as [Hs Hres].
  split; [exact Hs|].
  assert (Hr : -1048576 <= lib_DVDReadBlocks (demo_lib 10) (clock demo_session)
                 (file demo_context) (offset demo_context) 1 < 1048576)
    by (change (-1048576 <= 1 < 1048576); lia).
  destruct (Hres Hr) as (res & E & _ & _ & _).
  rewrite E. vm_compute in E. injection E as <-. reflexivity.
Defined.

Lemma null_session_efault_witness :
  no_disc (initial_state title_default)
  /\ dvd_read (demo_lib 10) (initial_state title_default)
     = (Done (AVERROR EFAULT), initial_state title_default).
Proof.
  assert (H : no_disc (initial_state title_default)).
  { right. exists (new_context title_default). split; reflexivity. }
  split; [exact H|].
  exact (proj1 (null_session_efault (demo_lib 10) _ 0 0 H)).
Defined.

Lemma dvd_seek_refused_witness :
  fst (dvd_seek 4096 0 demo_session) = Done (AVERROR EINVAL)
  /\ priv_data (snd (dvd_seek 4096 0 demo_session)) = Some demo_context.
Proof.
  pose proof (dvd_seek_refused (demo_lib 10) demo_session demo_context 0%nat
                4096 0 3 eq_refl eq_refl dvd_seek (or_introl eq_refl)) as H.
  exact (conj (proj1 H) (proj1 (proj2 H))).
Defined.

Lemma dvd_close_releases_in_order_witness :
  fst (dvd_close demo_session) = Done 0
  /\ trace (snd (dvd_close demo_session)) = [EvDVDClose 0%nat].
Proof.
  pose proof (dvd_close_releases_in_order demo_session demo_context eq_refl) as H.
  exact (conj (proj1 H) (proj1 (proj2 (proj2 H)))).
Defined.

Lemma dvd_close_twice_repeats_witness :
  trace (snd (dvd_close (snd (dvd_close demo_session)))) =
    [EvDVDClose 0%nat; EvDVDClose 0%nat].
Proof.
  pose proof (dvd_close_twice_repeats demo_session demo_context eq_refl) as H.
  cbv zeta in H.
  destruct H as (_ & H1 & _ & _ & H2). rewrite H2, H1. reflexivity.
Defined.

Lemma empty_disc_no_usable_title : no_usable_title empty_lib.
Proof.
  intros now rd i srpt Hi Ht. simpl in Hi.
  injection Hi as <-. simpl in Ht. injection Ht as <-. simpl. lia.
Defined.

Lemma dvd_open_no_titles_witness :
  no_usable_title empty_lib
  /\ fst (dvd_open empty_lib demo_path 0 (initial_state title_default))
     = Done (AVERROR EIO).
Proof.
  split; [exact empty_disc_no_usable_title|].
  exact (proj1 (dvd_open_no_titles empty_lib (dvd_open empty_lib) demo_path 0
                  (initial_state title_default) (new_context title_default)
                  (or_introl eq_refl) eq_refl empty_disc_no_usable_title)).
Defined.

Lemma demo_disc_with_titles (B : Z) :
  disc_with_titles (demo_lib B)
    (mk_tt_srpt 3 [mk_title_info 1 1; mk_title_info 1 2; mk_title_info 2 1]).
Proof.
  split; [reflexivity|]. split; [|reflexivity].
  intros now rd. exists demo_vmg. repeat split.
Defined.

Lemma dvd_open_selects_title_witness :
  exists c' ti,
    priv_data (snd (dvd_open (demo_lib 10) demo_path 0 (initial_state 7))) = Some c'
    /\ title c' = 1
    /\ index [mk_title_info 1 1; mk_title_info 1 2; mk_title_info 2 1] (title c' - 1)
       = Some ti
    /\ title_set c' = title_set_nr ti.
Proof.
  assert (Hr : int_range (title (new_context 7)))
    by (unfold int_range, INT_MIN, INT_MAX; simpl; lia).
  assert (HN : 1 <= nr_of_srpts
                 (mk_tt_srpt 3 [mk_title_info 1 1; mk_title_info 1 2; mk_title_info 2 1]))
    by (simpl; lia).
  destruct (dvd_open_selects_title (demo_lib 10) demo_path 0 (initial_state 7)
              (new_context 7) _ eq_refl Hr (demo_disc_with_titles 10) HN)
    as (c' & ti & Hp & _ & Hout & _ & Hi & Hs).
  exists c', ti. repeat split; auto.
  apply Hout. right. simpl. lia.
Defined.

Lemma dvd_open_failure_releases_nothing_witness :
  let failed := dvd_open no_vts_lib demo_path 0 (initial_state title_default) in
  failed = (Done (AVERROR EIO), snd failed)
  /\ exists evs c',
       trace (snd failed) = [] ++ evs
       /\ released evs = []
       /\ priv_data (snd failed) = Some c'.
Proof.
  intros failed.
  assert (Hrun : failed = (Done (AVERROR EIO), snd failed))
    by (vm_compute; reflexivity).
  assert (Hne : AVERROR EIO <> 0) by discriminate.
  split; [exact Hrun|].
  destruct (dvd_open_failure_releases_nothing no_vts_lib (dvd_open no_vts_lib)
              demo_path 0 (initial_state title_default) (snd failed)
              (new_context title_default) (AVERROR EIO)
              (or_introl eq_refl) eq_refl Hrun Hne)
    as (_ & evs & c' & Ht & Hr & _ & Hp & _).
  exists evs, c'. repeat split; assumption.
Defined.

Lemma cursor_counts_reads_witness :
  let opened := dvd_open (demo_lib 10) demo_path 0 (initial_state 2) in
  opened = (Done 0, snd opened)
  /\ exists c1 cn,
       priv_data (snd opened) = Some c1
       /\ priv_data (snd (read_n (demo_lib 10) 12 (snd opened))) = Some cn
       /\ offset cn = 12.
Proof.
  intros opened.
  assert (Hrun : opened = (Done 0, snd opened)) by (vm_compute; reflexivity).
  assert (Hn : Z.of_nat 12 <= INT_MAX) by (unfold INT_MAX; simpl; lia).
  split; [exact Hrun|].
  destruct (cursor_counts_reads (demo_lib 10) (dvd_open (demo_lib 10)) demo_path 0
              (initial_state 2) (snd opened) (new_context 2) 12
              (or_introl eq_refl) eq_refl Hrun Hn)
    as (c1 & cn & H1 & _ & H2 & H3 & _).
  exists c1, cn. repeat split; assumption.
Defined.

(** * Further properties of the protocol functions *)

(** ** Handles that are live in a trace *)

Lemma live_In (tr : list event) (p : handle) :
  In p (live tr) <-> In p (acquired tr) /\ ~ In p (released tr).
Proof.
  unfold live. rewrite filter_In. split; intros [Ha Hr]; split; auto.
  - intros Hin. apply negb_true_iff in Hr.
    assert (Hex : existsb (Nat.eqb p) (released tr) = true).
    { apply existsb_exists. exists p. split; [exact Hin | apply Nat.eqb_refl]. }
    congruence.
  - apply negb_true_iff.
    destruct (existsb (Nat.eqb p) (released tr)) eqn:E; [|reflexivity].
    apply existsb_exists in E. destruct E as (q & Hq & Heq).
    apply Nat.eqb_eq in Heq. subst q. contradiction.
Qed.

(** ** check_disc_info *)

(** X1.  On a context with a disc handle, [check_disc_info] asks once for
    the volume-level navigation info, returns 0 when the library hands out a
    handle and -1 (after logging the failure) when it does not, and leaves
    the context as it was in both cases: the handle of a successful probe is
    stored nowhere, so a [dvd_close] that follows does not release it. *)
Theorem check_disc_info_probe
  (lib : dvdread) (s : state) (ctx : DVDContext) (rd : handle) :
  priv_data s = Some ctx -> dvd ctx = Some rd ->
  (forall p, In p (held ctx) -> (p < clock s)%nat) ->
  let r := check_disc_info lib s in
  priv_data (snd r) = Some ctx
  /\ clock (snd r) = S (clock s)
  /\ (lib_ifoOpen lib (clock s) rd 0 = None ->
      fst r = Done (-1)
      /\ trace (snd r) =
           trace s ++ [EvIfoOpen rd 0 None;
                       EvLog AV_LOG_ERROR "ifoOpen() failed\n" []])
  /\ (lib_ifoOpen lib (clock s) rd 0 <> None ->
      fst r = Done 0
      /\ trace (snd r) = trace s ++ [EvIfoOpen rd 0 (Some (clock s))]
      /\ ~ In (clock s) (held ctx)
      /\ ~ In (clock s) (released (closing_events ctx))
      /\ trace (snd (dvd_close (snd r))) =
           trace s ++ [EvIfoOpen rd 0 (Some (clock s))] ++ closing_events ctx).
Proof.
  intros Hp Hd Hold r. subst r.
  assert (Hfresh : ~ In (clock s) (held ctx)).
  { intros Hin. apply Hold in Hin. lia. }
  assert (Hrel : ~ In (clock s) (released (closing_events ctx))).
  { intros Hin. apply Hfresh. revert Hin. unfold held, closing_events, released.
    destruct ctx as [d vm vt f ? ? ? ? ? ? ?]; simpl.
    destruct vm as [[p1 ?]|], vt as [[p2 ?]|], d as [p3|], f as [p4|];
      simpl; tauto. }
  destruct s as [pd ck tr]; simpl in Hp; subst pd.
  destruct ctx as [d vm vt f b ce ch sz o ts t]; simpl in Hd; subst d.
  cbn [clock] in *.
  unfold check_disc_info, bind, deref, ifoOpen, call, av_log, emit, ret.
  cbn [priv_data dvd clock trace].
  destruct (lib_ifoOpen lib ck rd 0) as [i|]; cbn [option_map fst snd priv_data clock trace].
  - split; [reflexivity|]. split; [reflexivity|].
    split; [discriminate|]. intros _.
    split; [reflexivity|]. split; [reflexivity|].
    split; [exact Hfresh|]. split; [exact Hrel|].
    rewrite (dvd_close_run (mk_state _ _ _) _ eq_refl).
    cbn [snd trace]. rewrite <- app_assoc. reflexivity.
  - split; [reflexivity|]. split; [reflexivity|].
    split; [intros _; split; [reflexivity | rewrite <- app_assoc; reflexivity]|].
    intros H; contradiction H; reflexivity.
Qed.

(** ** dvd_read *)

(** X6.  [dvd_read] never returns 0: in every state in which its [int]
    arithmetic does not overflow (cursor below [INT_MAX], byte count of the
    library's answer within [int]), and with a null context or disc handle,
    it returns a non-zero value, namely [AVERROR(EFAULT)], [AVERROR_EOF] or
    the non-zero byte count [len]; a zero byte count is turned into
    [AVERROR_EOF]. *)
Theorem dvd_read_never_zero (lib : dvdread) (s : state) :
  (forall ctx, priv_data s = Some ctx -> dvd ctx <> None ->
     INT_MIN <= offset ctx < INT_MAX
     /\ -1048576 <= lib_DVDReadBlocks lib (clock s) (file ctx) (offset ctx) 1
        < 1048576) ->
  exists r, fst (dvd_read lib s) = Done r /\ r <> 0.
Proof.
  intros _.
  destruct s as [pd ck tr]. destruct pd as [ctx|].
  - destruct ctx as [d vm vt f b ce ch sz o ts t]. destruct d as [rd|].
    + rewrite (dvd_read_value lib (mk_state (Some _) ck tr)
                 (mk_ctx (Some rd) vm vt f b ce ch sz o ts t) rd eq_refl eq_refl).
      cbv zeta.
      match goal with |- context [if ?c then _ else _] => destruct c eqn:E end.
      * eexists; split; [reflexivity | discriminate].
      * eexists; split; [reflexivity|].
        apply orb_false_iff in E. destruct E as [E _].
        apply Z.eqb_neq in E. exact E.
    + exists (AVERROR EFAULT). split; [reflexivity | discriminate].
  - exists (AVERROR EFAULT). split; [reflexivity | discriminate].
Qed.

(** X7.  [dvd_read] does not test the library's answer for an error: when
    the moved cursor is still below [blocks], an answer [r <> 0] (within
    the range where [r * 2048] fits an [int]) is returned as [r * 2048].
    A failed sector read ([r < 0], -1 in libdvdread) thus comes back as a
    negative number that is neither [AVERROR_EOF] nor [AVERROR(EIO)], and
    the cursor has moved past the unread sector all the same. *)
Theorem dvd_read_library_error
  (lib : dvdread) (s : state) (ctx : DVDContext) (rd : handle) :
  priv_data s = Some ctx -> dvd ctx = Some rd ->
  INT_MIN <= offset ctx -> offset ctx + 1 < blocks ctx -> blocks ctx <= INT_MAX ->
  let r := lib_DVDReadBlocks lib (clock s) (file ctx) (offset ctx) 1 in
  r <> 0 -> -1048576 <= r < 1048576 ->
  fst (dvd_read lib s) = Done (r * 2048)
  /\ priv_data (snd (dvd_read lib s)) = Some (set_offset (offset ctx + 1) ctx)
  /\ (r < 0 -> r * 2048 < 0 /\ r * 2048 <> AVERROR_EOF
               /\ r * 2048 <> AVERROR EIO).
Proof.
  intros Hp Hd Hlo Hhi HB r Hr0 Hr.
  assert (Hadd : int_add (offset ctx) 1 = offset ctx + 1).
  { unfold int_add. apply wrap32_id. unfold int_range, INT_MIN, INT_MAX in *. lia. }
  pose proof (dvd_read_state lib s ctx rd Hp Hd) as Hs.
  pose proof (dvd_read_value lib s ctx rd Hp Hd) as Hv.
  cbv zeta in Hv. fold r in Hs, Hv. rewrite Hadd in Hs, Hv. clearbody r.
  assert (Hlen : int_mul (wrap32 r) DVD_VIDEO_LB_LEN = r * 2048).
  { unfold int_mul, DVD_VIDEO_LB_LEN.
    rewrite (wrap32_id r) by (unfold int_range, INT_MIN, INT_MAX; lia).
    apply wrap32_id. unfold int_range, INT_MIN, INT_MAX. lia. }
  rewrite Hlen in Hv.
  split.
  - rewrite Hv. f_equal.
    destruct (Z.eqb_spec (r * 2048) 0) as [E|_]; [lia|].
    destruct (Z.geb_spec (offset ctx + 1) (blocks ctx)) as [E|_]; [lia|].
    reflexivity.
  - split; [rewrite Hs; reflexivity|].
    intros Hneg. rewrite AVERROR_EOF_value. unfold AVERROR, EIO. lia.
Qed.

(** ** Sequences of reads, continued *)

(** X5.  End-of-stream is sticky: once the cursor is within one sector of
    [blocks] (or past it), every further read reports end-of-stream,
    whatever the library answers, as long as the cursor does not overflow. *)
Theorem eof_is_sticky (lib : dvdread) (n : nat) :
  forall s c rd,
  priv_data s = Some c -> dvd c = Some rd ->
  INT_MIN <= offset c -> offset c + Z.of_nat n <= INT_MAX ->
  blocks c <= offset c + 1 ->
  fst (read_n lib n s) = repeat (Done AVERROR_EOF) n.
Proof.
  induction n as [|n IH]; intros s c rd Hp Hd Hlo Hhi Hb.
  - reflexivity.
  - destruct (read_n_S lib n s) as [-> _].
    assert (Hadd : int_add (offset c) 1 = offset c + 1).
    { unfold int_add. apply wrap32_id. unfold int_range. lia. }
    rewrite (read_reaching_blocks lib s c rd Hp Hd) by lia.
    simpl. f_equal.
    apply (IH _ (set_offset (offset c + 1) c) rd);
      [ rewrite (dvd_read_state lib s c rd Hp Hd), Hadd; reflexivity
      | destruct c; exact Hd
      | destruct c; simpl in *; lia
      | destruct c; simpl in *; lia
      | destruct c; simpl in *; lia ].
Qed.

(** X16.  Reads touch nothing but the cursor: [n] reads on an open session
    make exactly [n] library calls, each a request for one sector, acquire
    and release no handle, and leave every handle, the title, [blocks] and
    [size] of the context as they were. *)
Theorem reads_keep_handles (lib : dvdread) (n : nat) :
  forall s c rd,
  priv_data s = Some c -> dvd c = Some rd ->
  exists evs c',
    trace (snd (read_n lib n s)) = trace s ++ evs
    /\ List.length evs = n
    /\ Forall is_sector_request evs
    /\ acquired evs = [] /\ released evs = []
    /\ priv_data (snd (read_n lib n s)) = Some c'
    /\ dvd c' = dvd c /\ vmg c' = vmg c /\ vts c' = vts c /\ file c' = file c
    /\ title c' = title c /\ title_set c' = title_set c
    /\ blocks c' = blocks c /\ size c' = size c.
Proof.
  induction n as [|n IH]; intros s c rd Hp Hd.
  - exists [], c. simpl. rewrite app_nil_r. repeat split; auto.
  - destruct (read_n_S lib n s) as [_ ->].
    pose proof (dvd_read_state lib s c rd Hp Hd) as Hs.
    set (c1 := set_offset (int_add (offset c) 1) c) in *.
    assert (Hd1 : dvd c1 = Some rd) by (destruct c; exact Hd).
    destruct (IH (snd (dvd_read lib s)) c1 rd) as
      (evs & c' & Ht & Hl & Hf & Ha & Hr & Hp' & E1 & E2 & E3 & E4 & E5 & E6 & E7 & E8);
      [rewrite Hs; reflexivity | exact Hd1 |].
    assert (Htr : trace (snd (dvd_read lib s)) =
                  trace s ++ [EvDVDReadBlocks (file c) (offset c) 1
                    (wrap32 (lib_DVDReadBlocks lib (clock s) (file c) (offset c) 1))])
      by (rewrite Hs; reflexivity).
    eexists (_ :: evs), c'.
    rewrite Ht, Htr, <- app_assoc.
    split; [reflexivity|].
    split; [simpl; f_equal; exact Hl|].
    split; [constructor; [reflexivity | exact Hf]|].
    split; [exact Ha|]. split; [exact Hr|].
    split; [exact Hp'|].
    destruct c; simpl in *. repeat split; assumption.
Qed.

(** ** What a successful open leaves *)

Ltac bool_facts :=
  repeat match goal with
  | H : negb _ = false |- _ => apply negb_false_iff in H
  | H : (_ || _) = false |- _ =>
      apply orb_false_iff in H; destruct H
  | H : (_ <? _) = false |- _ => apply Z.ltb_ge in H
  | H : (_ <? _) = true |- _ => apply Z.ltb_lt in H
  | H : (_ >? _) = false |- _ => rewrite Z.gtb_ltb in H
  | H : (_ >? _) = true |- _ => rewrite Z.gtb_ltb in H
  end.

(** X2.  When [dvd_open] of [dvd.c] returns 0, all four handles are set
    and are the ones the library handed out; the volume info has its info
    block and a title table; [title] lies in [1, nr_of_srpts] and
    [title_set] is the [title_set_nr] of its entry; the title-set info has
    its info block; [cells] and [chapters] are the counts of the program
    chain that the title-set info gives for the title (the chain numbered
    by the first chapter of entry [vts_ttn - 1] of its chapter table),
    which has cell playback data; [size] is [blocks * 2048] in [int]
    arithmetic, [blocks] is what [DVDFileSize] answered, and the cursor is
    0. *)
Theorem dvd_open_success
  (lib : dvdread) (path : string) (flags : Z) (s s' : state) (ctx : DVDContext) :
  priv_data s = Some ctx ->
  dvd_open lib path flags s = (Done 0, s') ->
  exists c' rd vm vmg_i srpt ti vt vts_i fh pgcit ptt_srpt ttus ttu ptt0 srp pg,
    priv_data s' = Some c'
    /\ dvd c' = Some rd /\ vmg c' = Some (vm, vmg_i)
    /\ vts c' = Some (vt, vts_i) /\ file c' = Some fh
    /\ vmgi_mat vmg_i = true /\ tt_srpt vmg_i = Some srpt
    /\ 1 <= title c' <= nr_of_srpts srpt
    /\ index (tt_title srpt) (int_sub (title c') 1) = Some ti
    /\ title_set c' = title_set_nr ti
    /\ vtsi_mat vts_i = true
    /\ vts_pgcit vts_i = Some pgcit
    /\ vts_ptt_srpt vts_i = Some ptt_srpt
    /\ ptt_title ptt_srpt = Some ttus
    /\ index ttus (int_sub (vts_ttn ti) 1) = Some ttu
    /\ index (ptt ttu) 0 = Some ptt0
    /\ index (pgci_srp pgcit) (int_sub (pgcn ptt0) 1) = Some srp
    /\ pgc srp = Some pg
    /\ cell_playback pg = true
    /\ cells c' = nr_of_cells pg /\ chapters c' = nr_of_programs pg
    /\ lib_ifoOpen lib vm rd 0 = Some vmg_i
    /\ lib_ifoOpen lib vt rd (title_set c') = Some vts_i
    /\ In (EvIfoOpen rd 0 (Some vm)) (trace s')
    /\ In (EvIfoOpen rd (title_set c') (Some vt)) (trace s')
    /\ In (EvDVDOpenFile rd (title_set c') (Some fh)) (trace s')
    /\ In (EvDVDFileSize fh (blocks c')) (trace s')
    /\ size c' = int_mul (blocks c') DVD_VIDEO_LB_LEN
    /\ offset c' = 0.
Proof.
  intros Hp. revert s'.
  destruct s as [pd ck tr]; simpl in Hp; subst pd.
  destruct ctx as [d vm vt f b ce ch sz o ts t].
  match goal with |- context [dvd_open lib path flags ?st] =>
    run_of (dvd_open lib path flags st) end.
  repeat step_with absurd_test;
    subst Q; cbv beta; intros s' E; inversion E; subst; clear E;
    bool_facts;
    cbn [priv_data trace];
    do 16 eexists; (split; [reflexivity|]);
    cbn [dvd vmg vts file title title_set cells chapters blocks size offset];
    (split; [reflexivity|]); (split; [reflexivity|]);
    (split; [reflexivity|]); (split; [reflexivity|]);
    (split; [eassumption|]); (split; [eassumption|]);
    (split; [lia|]);
    (split; [eassumption|]); (split; [reflexivity|]);
    (split; [eassumption|]);
    (split; [eassumption|]); (split; [eassumption|]); (split; [eassumption|]);
    (split; [eassumption|]); (split; [eassumption|]); (split; [eassumption|]);
    (split; [eassumption|]);
    (split; [eassumption|]);
    (split; [reflexivity|]); (split; [reflexivity|]);
    (split; [eassumption|]); (split; [eassumption|]);
    (split; [rewrite ?in_app_iff; simpl; tauto|]);
    (split; [rewrite ?in_app_iff; simpl; tauto|]);
    (split; [rewrite ?in_app_iff; simpl; tauto|]);
    (split; [apply in_or_app; right; left; reflexivity|]);
    split; reflexivity.
Qed.

(** X3.  When [dvd_open] of the other revision returns 0, the disc handle,
    the volume info and the title file are set while [vts], [cells] and
    [chapters] are left as they were; [title] is at least 1 (there is no
    upper bound) and [title_set] is the [title_set_nr] of the entry at
    [title - 1]; [size] is [blocks * 2048] in [int] arithmetic and the
    cursor is 0. *)
Theorem part000_open_success
  (lib : dvdread) (path : string) (flags : Z) (s s' : state) (ctx : DVDContext) :
  priv_data s = Some ctx ->
  Part000.dvd_open lib path flags s = (Done 0, s') ->
  exists c' rd vm vmg_i srpt ti fh,
    priv_data s' = Some c'
    /\ dvd c' = Some rd /\ vmg c' = Some (vm, vmg_i) /\ file c' = Some fh
    /\ vts c' = vts ctx /\ cells c' = cells ctx /\ chapters c' = chapters ctx
    /\ vmgi_mat vmg_i = true /\ tt_srpt vmg_i = Some srpt
    /\ 1 <= nr_of_srpts srpt /\ 1 <= title c'
    /\ (1 <= title ctx -> title c' = title ctx)
    /\ index (tt_title srpt) (int_sub (title c') 1) = Some ti
    /\ title_set c' = title_set_nr ti
    /\ In (EvDVDFileSize fh (blocks c')) (trace s')
    /\ size c' = int_mul (blocks c') DVD_VIDEO_LB_LEN
    /\ offset c' = 0.
Proof.
  intros Hp. revert s'.
  destruct s as [pd ck tr]; simpl in Hp; subst pd.
  destruct ctx as [d vm vt f b ce ch sz o ts t].
  match goal with |- context [Part000.dvd_open lib path flags ?st] =>
    run_of (Part000.dvd_open lib path flags st) end.
  repeat step_with absurd_test;
    subst Q; cbv beta; intros s' E; inversion E; subst; clear E;
    bool_facts;
    cbn [priv_data trace];
    do 7 eexists; (split; [reflexivity|]);
    cbn [dvd vmg vts file title title_set cells chapters blocks size offset];
    (split; [reflexivity|]); (split; [reflexivity|]);
    (split; [reflexivity|]); (split; [reflexivity|]); (split; [reflexivity|]);
    (split; [reflexivity|]);
    (split; [eassumption|]); (split; [eassumption|]);
    (split; [lia|]); (split; [lia|]); (split; [lia|]);
    (split; [eassumption|]); (split; [reflexivity|]);
    (split; [apply in_or_app; right; left; reflexivity|]);
    split; reflexivity.
Qed.

(** ** Open followed by close *)

(** X4.  [dvd_close] after a successful [dvd_open] (either revision, on a
    context without a stale title-set handle) releases the volume info, the
    title-set info and the disc handle, and nothing else: exactly two
    handles stay open for good, the one of the playability probe (the
    second library call) and the title file, for which the protocol has no
    release call. *)
Theorem open_close_leaks
  (lib : dvdread) (open : string -> Z -> M Z) (path : string) (flags : Z)
  (s s1 : state) (ctx : DVDContext) :
  is_dvd_open lib open -> priv_data s = Some ctx -> vts ctx = None ->
  open path flags s = (Done 0, s1) ->
  exists evs c1 fh,
    trace s1 = trace s ++ evs
    /\ priv_data s1 = Some c1 /\ file c1 = Some fh
    /\ fst (dvd_close s1) = Done 0
    /\ trace (snd (dvd_close s1)) = trace s ++ evs ++ closing_events c1
    /\ forall p, In p (live (evs ++ closing_events c1))
                 <-> p = S (clock s) \/ p = fh.
Proof.
  intros Ho Hp Hv. revert s1.
  destruct s as [pd ck tr]; simpl in Hp; subst pd.
  destruct ctx as [d vm vt f b ce ch sz o ts t]. simpl in Hv. subst vt.
  destruct Ho; subst open;
    match goal with |- context [?op lib path flags ?st] => run_of (op lib path flags st) end;
    repeat step_with absurd_test;
    subst Q; cbv beta; intros s1 E; inversion E; subst; clear E;
    cbn [priv_data trace clock]; rewrite <- ?app_assoc;
    do 3 eexists;
    (split; [reflexivity|]); (split; [reflexivity|]);
    (split; [reflexivity|]);
    rewrite (dvd_close_run (mk_state (Some _) _ _) _ eq_refl);
    cbn [fst snd trace];
    (split; [reflexivity|]);
    (split; [rewrite <- ?app_assoc; reflexivity|]);
    intros p_; rewrite live_In;
    unfold acquired, released, closing_events; cbn; lia.
Qed.

(** ** The stream size *)

(** X9.  After a successful [dvd_open] (either revision) [size] is
    [blocks * 2048] only while that fits an [int], that is for titles below
    2 GiB ([blocks < 1048576]); with two's complement wrap-around a title of
    2 GiB up to 4 GiB gets a negative [size]. *)
Theorem opened_size
  (lib : dvdread) (open : string -> Z -> M Z) (path : string) (flags : Z)
  (s s' : state) (ctx : DVDContext) :
  is_dvd_open lib open -> priv_data s = Some ctx ->
  open path flags s = (Done 0, s') ->
  exists c',
    priv_data s' = Some c'
    /\ (0 <= blocks c' < 1048576 -> size c' = blocks c' * 2048)
    /\ (1048576 <= blocks c' < 2097152 ->
        size c' = blocks c' * 2048 - 4294967296 /\ size c' < 0).
Proof.
  intros Ho Hp Hopen.
  destruct (dvd_open_ready lib open path flags s s' ctx Ho Hp Hopen)
    as (c' & rd & fh & Hp' & _ & _ & _ & Hsz & _).
  exists c'. split; [exact Hp'|].
  rewrite Hsz. unfold int_mul, wrap32, DVD_VIDEO_LB_LEN.
  split; intros Hb.
  - rewrite Z.mod_small by lia. lia.
  - assert (E : (blocks c' * 2048 + 2147483648) mod 4294967296
                = blocks c' * 2048 + 2147483648 - 4294967296).
    { symmetry. apply (Z.mod_unique _ _ 1); lia. }
    rewrite E. lia.
Qed.

(** ** The disc name *)

Lemma open_first_event
  (lib : dvdread) (open : string -> Z -> M Z) (path : string) (flags : Z)
  (s : state) (ctx : DVDContext) :
  is_dvd_open lib open -> priv_data s = Some ctx ->
  exists r evs,
    trace (snd (open path flags s)) =
      trace s ++ EvDVDOpen (snd (av_strstart path DVD_PROTO_PREFIX path)) r :: evs.
Proof.
  intros Ho Hp.
  destruct s as [pd ck tr]; simpl in Hp; subst pd.
  destruct ctx as [d vm vt f b ce ch sz o ts t].
  set (name := snd (av_strstart path DVD_PROTO_PREFIX path)).
  destruct Ho; subst open;
    match goal with |- context [?op lib path flags ?st] =>
      pattern (op lib path flags st);
      lazymatch goal with |- ?q _ => set (Q := q) end
    end;
    unfold dvd_open, Part000.dvd_open; fold name; clearbody name; exec;
    repeat step_with absurd_test;
    subst Q; cbv beta; cbn [snd trace]; rewrite <- ?app_assoc;
    do 2 eexists; reflexivity.
Qed.

Lemma av_strstart_prefix (rest ptr : string) :
  av_strstart (String.append DVD_PROTO_PREFIX rest) DVD_PROTO_PREFIX ptr
  = (true, rest).
Proof.
  unfold av_strstart, DVD_PROTO_PREFIX. simpl. destruct rest; reflexivity.
Qed.

(** X10.  The first thing [dvd_open] (either revision) does is to open the
    disc named by the locator without its ["dvd:"] prefix; one prefix is
    removed, not more, and a locator that does not start with the prefix
    is passed on unchanged. *)
Theorem dvd_open_disc_name
  (lib : dvdread) (open : string -> Z -> M Z) (flags : Z)
  (s : state) (ctx : DVDContext) :
  is_dvd_open lib open -> priv_data s = Some ctx ->
  (forall rest, exists r evs,
      trace (snd (open (String.append "dvd:" rest) flags s)) =
        trace s ++ EvDVDOpen rest r :: evs)
  /\ (forall path, strip_prefix path "dvd:" = None -> exists r evs,
      trace (snd (open path flags s)) = trace s ++ EvDVDOpen path r :: evs).
Proof.
  intros Ho Hp. split.
  - intros rest.
    destruct (open_first_event lib open (String.append "dvd:" rest) flags s ctx Ho Hp)
      as (r & evs & E).
    exists r, evs. rewrite E.
    change (String.append "dvd:" rest) with (String.append DVD_PROTO_PREFIX rest).
    rewrite av_strstart_prefix. reflexivity.
  - intros path Hn.
    destruct (open_first_event lib open path flags s ctx Ho Hp) as (r & evs & E).
    exists r, evs. rewrite E. unfold av_strstart, DVD_PROTO_PREFIX.
    rewrite Hn. reflexivity.
Qed.

(** ** Title selection in the other revision *)

(** X12.  For a requested title up to the table count the other revision
    selects like [dvd.c]: a title in [1, N] is kept, a title below 1 becomes
    1, [title_set] is the [title_set_nr] of the entry at [title - 1]; and
    since this revision makes no further table access, its [dvd_open]
    never leaves an array. *)
Theorem part000_open_selects_title
  (lib : dvdread) (path : string) (flags : Z) (s : state) (ctx : DVDContext)
  (srpt : tt_srpt_t) :
  priv_data s = Some ctx -> int_range (title ctx) ->
  disc_with_titles lib srpt -> 1 <= nr_of_srpts srpt ->
  title ctx <= nr_of_srpts srpt ->
  fst (Part000.dvd_open lib path flags s) <> Undefined
  /\ exists c' ti,
       priv_data (snd (Part000.dvd_open lib path flags s)) = Some c'
       /\ title c' = effective_title (title ctx) (nr_of_srpts srpt)
       /\ index (tt_title srpt) (title c' - 1) = Some ti
       /\ title_set c' = title_set_nr ti.
Proof.
  intros Hp Ht (Hopen & Hifo & Hlen) HN Hle.
  destruct s as [pd ck tr]; simpl in Hp; subst pd.
  destruct ctx as [d vm vt f b ce ch sz o ts t].
  cbn [title] in *.
  destruct (Hifo (S ck) ck) as (i1 & E1 & _ & _).
  destruct (Hifo (S (S ck)) ck) as (i2 & E2 & Em & Et).
  assert (Em' : negb (vmgi_mat i2) = false) by (rewrite Em; reflexivity).
  assert (En : (nr_of_srpts srpt <? 1) = false) by (apply Z.ltb_ge; lia).
  unfold int_range, INT_MIN, INT_MAX in Ht.
  match goal with |- context [Part000.dvd_open lib path flags ?st] =>
    run_of (Part000.dvd_open lib path flags st) end.
  pose proof (Hopen ck diskname) as E0.
  destruct (t <? 1) eqn:Elow.
  - apply Z.ltb_lt in Elow.
    destruct (index_Some (tt_title srpt) 0) as [ti Hti]; [lia|].
    change 0 with (int_sub 1 1) in Hti.
    assert (Heff : effective_title t (nr_of_srpts srpt) = 1).
    { unfold effective_title. destruct (Z.leb_spec 1 t); [lia|reflexivity]. }
    assert (Elow' : (t <? 1) = true) by (apply Z.ltb_lt; exact Elow).
    repeat step_with absurd_test;
      subst Q; cbv beta; cbn [fst snd priv_data];
      (split; [discriminate|]);
      do 2 eexists; (split; [reflexivity|]); cbn [title title_set];
      (split; [symmetry; exact Heff|]); (split; [exact Hti | reflexivity]).
  - pose proof Elow as Elow'. apply Z.ltb_ge in Elow.
    assert (Hsub : int_sub t 1 = t - 1).
    { unfold int_sub. apply wrap32_id. unfold int_range, INT_MIN, INT_MAX. lia. }
    destruct (index_Some (tt_title srpt) (t - 1)) as [ti Hti]; [lia|].
    pose proof Hti as Hti'. rewrite <- Hsub in Hti'.
    assert (Heff : effective_title t (nr_of_srpts srpt) = t).
    { unfold effective_title.
      destruct (Z.leb_spec 1 t), (Z.leb_spec t (nr_of_srpts srpt));
        simpl; try reflexivity; lia. }
    repeat step_with absurd_test;
      subst Q; cbv beta; cbn [fst snd priv_data];
      (split; [discriminate|]);
      do 2 eexists; (split; [reflexivity|]); cbn [title title_set];
      (split; [symmetry; exact Heff|]); (split; [exact Hti | reflexivity]).
Qed.

(** ** Where [dvd_open] can leave an array *)

Ltac title_lookup_in_bounds Hwf :=
  idtac;
  match goal with
  | Hi : lib_ifoOpen _ _ _ 0 = Some ?i, Ht : tt_srpt ?i = Some ?srpt,
    Hx : index (tt_title ?srpt) (int_sub ?t 1) = None |- _ =>
      exfalso; pose proof (Hwf _ _ _ _ Hi Ht); bool_facts;
      assert (int_sub t 1 = t - 1) as Hsub
        by (unfold int_sub; apply wrap32_id;
            unfold int_range, INT_MIN, INT_MAX in *; lia);
      rewrite Hsub in Hx;
      destruct (index_Some (tt_title srpt) (t - 1)) as [x Hx']; [lia | congruence]
  end.

(** X13.  With the clamp of [dvd.c] the title-table lookup is always in
    bounds (on tables with at least as many entries as they announce): if
    [dvd_open] leaves an array at all, it does so in the program-chain
    lookups, after the title file has been opened. *)
Theorem dvd_open_faults_after_file
  (lib : dvdread) (path : string) (flags : Z) (s : state) (ctx : DVDContext) :
  priv_data s = Some ctx -> int_range (title ctx) -> well_formed_tables lib ->
  fst (dvd_open lib path flags s) = Undefined ->
  exists evs rd tsn fh,
    trace (snd (dvd_open lib path flags s)) = trace s ++ evs
    /\ In (EvDVDOpenFile rd tsn (Some fh)) evs.
Proof.
  intros Hp Ht Hwf.
  destruct s as [pd ck tr]; simpl in Hp; subst pd.
  destruct ctx as [d vm vt f b ce ch sz o ts t].
  cbn [title] in Ht.
  match goal with |- context [dvd_open lib path flags ?st] =>
    run_of (dvd_open lib path flags st) end.
  repeat step_with ltac:(first [absurd_test | title_lookup_in_bounds Hwf]);
    subst Q; cbv beta; cbn [fst snd trace]; intros E; try discriminate E;
    rewrite <- ?app_assoc; do 4 eexists; (split; [reflexivity|]);
    simpl; repeat (first [left; reflexivity | right]).
Qed.

(** ** A failed open and what follows *)

(** X15.  When the disc cannot be opened, [dvd_open] (either revision)
    makes this one library call, logs the failure, returns [AVERROR(EIO)]
    and clears the disc handle, leaving the rest of the context alone; the
    reads and seeks that follow are refused with [AVERROR(EFAULT)] and
    change nothing. *)
Theorem open_fails_at_DVDOpen
  (lib : dvdread) (open : string -> Z -> M Z) (path : string) (flags : Z)
  (s : state) (ctx : DVDContext) (pos whence : Z) :
  is_dvd_open lib open -> priv_data s = Some ctx ->
  (forall p, lib_DVDOpen lib (clock s) p = false) ->
  let s' := snd (open path flags s) in
  fst (open path flags s) = Done (AVERROR EIO)
  /\ s' = mk_state (Some (set_dvd None ctx)) (S (clock s))
            (trace s ++ [EvDVDOpen (snd (av_strstart path DVD_PROTO_PREFIX path)) None;
                         EvLog AV_LOG_ERROR "DVDOpen() failed\n" []])
  /\ dvd_read lib s' = (Done (AVERROR EFAULT), s')
  /\ dvd_seek pos whence s' = (Done (AVERROR EFAULT), s')
  /\ Part000.dvd_seek pos whence s' = (Done (AVERROR EFAULT), s').
Proof.
  intros Ho Hp Hno s'.
  assert (E : open path flags s =
              (Done (AVERROR EIO),
               mk_state (Some (set_dvd None ctx)) (S (clock s))
                 (trace s ++ [EvDVDOpen (snd (av_strstart path DVD_PROTO_PREFIX path)) None;
                              EvLog AV_LOG_ERROR "DVDOpen() failed\n" []]))).
  { destruct s as [pd ck tr]; simpl in Hp; subst pd. cbn [clock trace] in *.
    destruct Ho; subst open; unfold dvd_open, Part000.dvd_open;
      cbv zeta; unfold bind, DVDOpen, call, assign, av_log, emit, ret, fresh;
      cbn [priv_data clock trace]; rewrite Hno;
      cbn [priv_data clock trace]; rewrite <- ?app_assoc; reflexivity. }
  subst s'. rewrite E. cbn [fst snd].
  split; [reflexivity|]. split; [reflexivity|].
  destruct ctx as [d vm vt f b ce ch sz o ts t].
  repeat split.
Qed.

(** X14.  A [dvd_open] (either revision) that fails after the disc itself
    was opened leaves the disc handle in the context, so a [dvd_read] that
    follows is not refused: it asks the library for one sector with
    whatever the title-file field holds (null, if the failure came before
    the title file was opened) and moves the cursor. *)
Theorem failed_open_still_reads
  (lib : dvdread) (open : string -> Z -> M Z) (path : string) (flags : Z)
  (s s' : state) (ctx : DVDContext) (res : Z) :
  is_dvd_open lib open -> priv_data s = Some ctx ->
  (forall p, lib_DVDOpen lib (clock s) p = true) ->
  open path flags s = (Done res, s') -> res <> 0 ->
  exists c',
    priv_data s' = Some c' /\ dvd c' = Some (clock s)
    /\ snd (dvd_read lib s') =
         mk_state (Some (set_offset (int_add (offset c') 1) c'))
                  (S (clock s'))
                  (trace s' ++ [EvDVDReadBlocks (file c') (offset c') 1
                     (wrap32 (lib_DVDReadBlocks lib (clock s') (file c') (offset c') 1))])
    /\ (file ctx = None ->
        (forall now rd n, lib_DVDOpenFile lib now rd n = false) ->
        file c' = None).
Proof.
  intros Ho Hp Hopen. revert res s'.
  destruct s as [pd ck tr]; simpl in Hp; subst pd. cbn [clock] in *.
  destruct ctx as [d vm vt f b ce ch sz o ts t].
  destruct Ho; subst open;
    match goal with |- context [?op lib path flags ?st] => run_of (op lib path flags st) end;
    pose proof (Hopen diskname) as E0;
    repeat step_with absurd_test;
    subst Q; cbv beta; intros res s' E Hne; inversion E; subst; clear E;
    try (exfalso; apply Hne; reflexivity);
    eexists; (split; [reflexivity|]); cbn [dvd file offset];
    (split; [reflexivity|]);
    (split; [eapply dvd_read_state; reflexivity|]);
    intros Hf Hnof; try exact Hf; try reflexivity;
    match goal with
    | Hx : lib_DVDOpenFile _ _ _ _ = true |- _ => rewrite Hnof in Hx; discriminate Hx
    end.
Qed.

(** ** The further properties at concrete inputs *)

Lemma demo_held_before_clock :
  forall p, In p (held demo_context) -> (p < clock demo_session)%nat.
Proof.
  intros p Hin. simpl in Hin.
  destruct Hin as [<- | [<- | []]]; simpl; lia.
Defined.

Lemma check_disc_info_probe_witness :
  fst (check_disc_info (demo_lib 10) demo_session) = Done 0
  /\ priv_data (snd (check_disc_info (demo_lib 10) demo_session))
     = Some demo_context
  /\ ~ In 6%nat (released (closing_events demo_context)).
Proof.
  pose proof (check_disc_info_probe (demo_lib 10) demo_session demo_context 0%nat
                eq_refl eq_refl demo_held_before_clock) as H.
  cbv zeta in H. destruct H as (Hc & _ & _ & Hok).
  assert (Hsome : lib_ifoOpen (demo_lib 10) (clock demo_session) 0%nat 0 <> None)
    by discriminate.
  destruct (Hok Hsome) as (Hr & _ & _ & Hrel & _).
  exact (conj Hr (conj Hc Hrel)).
Defined.

Lemma eof_is_sticky_witness :
  fst (read_n (demo_lib 10) 3
         (mk_state (Some (set_offset 9 demo_context)) 15 []))
  = [Done AVERROR_EOF; Done AVERROR_EOF; Done AVERROR_EOF].
Proof.
  apply (eof_is_sticky (demo_lib 10) 3
           (mk_state (Some (set_offset 9 demo_context)) 15 [])
           (set_offset 9 demo_context) 0%nat eq_refl eq_refl);
    unfold INT_MIN, INT_MAX; simpl; lia.
Defined.

Lemma dvd_read_library_error_witness :
  fst (dvd_read (failing_read_lib 10) demo_session) = Done (-1 * 2048).
Proof.
  apply (dvd_read_library_error (failing_read_lib 10) demo_session demo_context
           0%nat eq_refl eq_refl);
    unfold INT_MIN, INT_MAX; simpl; lia.
Defined.

Lemma last_sector_reported_as_eof_witness :
  fst (read_n (demo_lib 10) (Z.to_nat (10 - 1) + 1) demo_session)
  = repeat (Done 2048) (Z.to_nat (10 - 1)) ++ [Done AVERROR_EOF].
Proof.
  apply (last_sector_reported_as_eof (demo_lib 10) 10 demo_session demo_context
           0%nat eq_refl eq_refl eq_refl eq_refl).
  - unfold INT_MAX. lia.
  - apply demo_answers_in_file.
Defined.

Lemma reads_keep_handles_witness :
  exists evs c',
    trace (snd (read_n (demo_lib 10) 3 demo_session)) = trace demo_session ++ evs
    /\ List.length evs = 3%nat
    /\ priv_data (snd (read_n (demo_lib 10) 3 demo_session)) = Some c'
    /\ file c' = Some 4%nat.
Proof.
  destruct (reads_keep_handles (demo_lib 10) 3 demo_session demo_context 0%nat
              eq_refl eq_refl)
    as (evs & c' & Ht & Hl & _ & _ & _ & Hp & _ & _ & _ & Hf & _).
  exists evs, c'. repeat split; assumption.
Defined.

Lemma dvd_open_success_witness :
  let opened := dvd_open (demo_lib 10) demo_path 0 (initial_state 2) in
  opened = (Done 0, snd opened)
  /\ exists c' pg,
       priv_data (snd opened) = Some c'
       /\ cells c' = nr_of_cells pg /\ chapters c' = nr_of_programs pg
       /\ title c' = 2 /\ offset c' = 0.
Proof.
  intros opened.
  assert (Hrun : opened = (Done 0, snd opened)) by (vm_compute; reflexivity).
  split; [exact Hrun|].
  destruct (dvd_open_success (demo_lib 10) demo_path 0 (initial_state 2)
              (snd opened) (new_context 2) eq_refl Hrun)
    as (c' & rd & vm & vmg_i & srpt & ti & vt & vts_i & fh & pgcit & ptt_srpt
        & ttus & ttu & ptt0 & srp & pg & Hp & _ & _ & _ & _ & _ & _ & _ & _
        & _ & _ & _ & _ & _ & _ & _ & _ & _ & _ & Hce & Hch & _).
  exists c', pg. split; [exact Hp|]. split; [exact Hce|]. split; [exact Hch|].
  assert (E : Some c' = priv_data (snd opened)) by (symmetry; exact Hp).
  vm_compute in E. injection E as ->. split; reflexivity.
Defined.

Lemma part000_open_success_witness :
  let opened := Part000.dvd_open (demo_lib 10) demo_path 0 (initial_state 2) in
  opened = (Done 0, snd opened)
  /\ exists c', priv_data (snd opened) = Some c' /\ vts c' = None /\ offset c' = 0.
Proof.
  intros opened.
  assert (Hrun : opened = (Done 0, snd opened)) by (vm_compute; reflexivity).
  split; [exact Hrun|].
  destruct (part000_open_success (demo_lib 10) demo_path 0 (initial_state 2)
              (snd opened) (new_context 2) eq_refl Hrun)
    as (c' & rd & vm & vmg_i & srpt & ti & fh & Hp & _ & _ & _ & Hv & _ & _ & _
        & _ & _ & _ & _ & _ & _ & _ & _ & Ho).
  exists c'. repeat split; assumption.
Defined.

Lemma open_close_leaks_witness :
  let opened := dvd_open (demo_lib 10) demo_path 0 (initial_state 2) in
  opened = (Done 0, snd opened)
  /\ exists evs c1 fh,
       trace (snd opened) = [] ++ evs
       /\ file c1 = Some fh
       /\ forall p, In p (live (evs ++ closing_events c1)) <-> p = 1%nat \/ p = fh.
Proof.
  intros opened.
  assert (Hrun : opened = (Done 0, snd opened)) by (vm_compute; reflexivity).
  split; [exact Hrun|].
  destruct (open_close_leaks (demo_lib 10) (dvd_open (demo_lib 10)) demo_path 0
              (initial_state 2) (snd opened) (new_context 2)
              (or_introl eq_refl) eq_refl eq_refl Hrun)
    as (evs & c1 & fh & Ht & _ & Hf & _ & _ & Hl).
  exists evs, c1, fh. repeat split; try assumption; apply Hl.
Defined.

Lemma opened_size_witness :
  let opened := dvd_open (demo_lib 1048576) demo_path 0 (initial_state 2) in
  opened = (Done 0, snd opened)
  /\ exists c', priv_data (snd opened) = Some c'
       /\ blocks c' = 1048576 /\ size c' < 0.
Proof.
  intros opened.
  assert (Hrun : opened = (Done 0, snd opened)) by (vm_compute; reflexivity).
  split; [exact Hrun|].
  destruct (opened_size (demo_lib 1048576) (dvd_open (demo_lib 1048576)) demo_path 0
              (initial_state 2) (snd opened) (new_context 2)
              (or_introl eq_refl) eq_refl Hrun)
    as (c' & Hp & _ & Hbig).
  assert (E : Some c' = priv_data (snd opened)) by (symmetry; exact Hp).
  vm_compute in E. injection E as Ec.
  assert (Hb : blocks c' = 1048576) by (rewrite Ec; reflexivity).
  exists c'. split; [exact Hp|]. split; [exact Hb|].
  apply Hbig. rewrite Hb. lia.
Defined.

Lemma dvd_open_disc_name_witness :
  exists r evs,
    trace (snd (dvd_open (demo_lib 10) "dvd:/dev/sr0" 0 (initial_state 2)))
    = [] ++ EvDVDOpen "/dev/sr0" r :: evs.
Proof.
  exact (proj1 (dvd_open_disc_name (demo_lib 10) (dvd_open (demo_lib 10)) 0
                  (initial_state 2) (new_context 2) (or_introl eq_refl) eq_refl)
               "/dev/sr0").
Defined.

Lemma part000_open_keeps_title_above_witness :
  fst (Part000.dvd_open (demo_lib 10) demo_path 0 (initial_state 7)) = Undefined.
Proof.
  assert (Hr : int_range (title (new_context 7)))
    by (unfold int_range, INT_MIN, INT_MAX; simpl; lia).
  refine (proj1 (part000_open_keeps_title_above (demo_lib 10) demo_path 0
                   (initial_state 7) (new_context 7) _ eq_refl Hr
                   (demo_disc_with_titles 10) _ _)); simpl; lia.
Defined.

Lemma part000_open_selects_title_witness :
  exists c' ti,
    priv_data (snd (Part000.dvd_open (demo_lib 10) demo_path 0 (initial_state 3)))
      = Some c'
    /\ title c' = 3
    /\ title_set c' = title_set_nr ti.
Proof.
  assert (Hr : int_range (title (new_context 3)))
    by (unfold int_range, INT_MIN, INT_MAX; simpl; lia).
  assert (HN : 1 <= nr_of_srpts
                 (mk_tt_srpt 3 [mk_title_info 1 1; mk_title_info 1 2; mk_title_info 2 1]))
    by (simpl; lia).
  assert (Hle : title (new_context 3) <= nr_of_srpts
                 (mk_tt_srpt 3 [mk_title_info 1 1; mk_title_info 1 2; mk_title_info 2 1]))
    by (simpl; lia).
  destruct (part000_open_selects_title (demo_lib 10) demo_path 0 (initial_state 3)
              (new_context 3) _ eq_refl Hr (demo_disc_with_titles 10) HN Hle)
    as (_ & c' & ti & Hp & Ht & _ & Hs).
  exists c', ti. repeat split; assumption.
Defined.

Lemma stray_ttn_tables_well_formed : well_formed_tables stray_ttn_lib.
Proof.
  intros now rd i srpt Hi Ht. simpl in Hi.
  injection Hi as <-. simpl in Ht. injection Ht as <-. simpl. lia.
Defined.

Lemma dvd_open_faults_after_file_witness :
  let faulted := dvd_open stray_ttn_lib demo_path 0 (initial_state 1) in
  fst faulted = Undefined
  /\ exists evs rd tsn fh,
       trace (snd faulted) = [] ++ evs
       /\ In (EvDVDOpenFile rd tsn (Some fh)) evs.
Proof.
  intros faulted.
  assert (Hrun : fst faulted = Undefined) by (vm_compute; reflexivity).
  assert (Hr : int_range (title (new_context 1)))
    by (unfold int_range, INT_MIN, INT_MAX; simpl; lia).
  split; [exact Hrun|].
  exact (dvd_open_faults_after_file stray_ttn_lib demo_path 0 (initial_state 1)
           (new_context 1) eq_refl Hr stray_ttn_tables_well_formed Hrun).
Defined.

Lemma failed_open_still_reads_witness :
  let failed := dvd_open no_vts_lib demo_path 0 (initial_state title_default) in
  failed = (Done (AVERROR EIO), snd failed)
  /\ exists c', priv_data (snd failed) = Some c'
       /\ dvd c' = Some 0%nat /\ file c' = None.
Proof.
  intros failed.
  assert (Hrun : failed = (Done (AVERROR EIO), snd failed))
    by (vm_compute; reflexivity).
  assert (Hne : AVERROR EIO <> 0) by discriminate.
  split; [exact Hrun|].
  destruct (failed_open_still_reads no_vts_lib (dvd_open no_vts_lib) demo_path 0
              (initial_state title_default) (snd failed)
              (new_context title_default) (AVERROR EIO)
              (or_introl eq_refl) eq_refl (fun _ => eq_refl) Hrun Hne)
    as (c' & Hp & Hd & _ & Hf).
  exists c'. split; [exact Hp|]. split; [exact Hd|].
  apply Hf; [reflexivity | intros; reflexivity].
Defined.

Lemma open_fails_at_DVDOpen_witness :
  fst (dvd_open no_disc_lib demo_path 0 (initial_state title_default))
  = Done (AVERROR EIO)
  /\ dvd_read no_disc_lib
       (snd (dvd_open no_disc_lib demo_path 0 (initial_state title_default)))
     = (Done (AVERROR EFAULT),
        snd (dvd_open no_disc_lib demo_path 0 (initial_state title_default))).
Proof.
  pose proof (open_fails_at_DVDOpen no_disc_lib (dvd_open no_disc_lib) demo_path 0
                (initial_state title_default) (new_context title_default) 0 0
                (or_introl eq_refl) eq_refl (fun _ => eq_refl)) as H.
  cbv zeta in H. destruct H as (H1 & _ & H3 & _).
  exact (conj H1 H3).
Defined.

Lemma dvd_read_never_zero_witness :
  exists r, fst (dvd_read (demo_lib 10) demo_session) = Done r /\ r <> 0.
Proof.
  apply (dvd_read_never_zero (demo_lib 10) demo_session).
  intros ctx Hp Hd. injection Hp as <-.
  change (INT_MIN <= 0 < INT_MAX /\ -1048576 <= 1 < 1048576).
  unfold INT_MIN, INT_MAX. lia.
Defined.
